(** * PiCamera capture backend (src/platform/linux/picamera_capture.cpp)

    A shallow embedding of the Raspberry Pi camera capture backend: the
    device, decode and conversion sessions, the paced capture loop and the
    enumeration of capture devices, followed by the properties of the
    specification that concern them.

    Conventions.  C++ [int] and [std::chrono::nanoseconds] values are
    integers of [Z]; time points are nanoseconds of the steady clock.  A
    pointer that may be null is an [option].  Arithmetic on [int] wraps at
    32 bits and arithmetic on [size_t] at 64 bits, as on the Raspberry Pi
    and on x86-64.  Calls into libavformat,
    libavcodec and libswscale are answered by explicit records: the code is
    verified for every answer the libraries can give.  Logging
    ([BOOST_LOG], [log_ffmpeg_error], the sleep overshoot logger) has no
    effect on the state and is left out. *)

From Stdlib Require Import ZArith List String Bool Lia DecimalString.
Import ListNotations.
Local Open Scope string_scope.
Local Open Scope Z_scope.

(** ** Types of the platform layer (src/platform/common.h, src/video.h) *)

(** [platf::capture_e], the results named by this backend. *)
Inductive capture_e : Type :=
  | ok
  | timeout
  | interrupted
  | error.

(** How a call into this backend ends: with the value it returns, or with
    the [std::bad_alloc] that [new[]] throws and that nothing here
    catches.  A returned value is read as an outcome where one is
    expected. *)
Inductive outcome : Type :=
  | returns (e : capture_e)
  | bad_alloc.

Coercion returns : capture_e >-> outcome.

#[local] Arguments pair {A B}%_type_scope & a b.
#[local] Arguments Some {A}%_type_scope & a.

Definition capture_e_eqb (a b : outcome) : bool :=
  match a, b with
  | returns ok, returns ok
  | returns timeout, returns timeout
  | returns interrupted, returns interrupted
  | returns error, returns error => true
  | _, _ => false
  end.

(** ** Machine arithmetic *)

(** The value of an [int] expression: the 32-bit two's complement value of
    the exact result. *)
Definition int_wrap (z : Z) : Z := (z + 2 ^ 31) mod 2 ^ 32 - 2 ^ 31.

(** [static_cast<size_t>(z)], and the conversion of an [int] operand of a
    [size_t] product. *)
Definition to_size_t (z : Z) : Z := z mod 2 ^ 64.

(** [static_cast<size_t>(row_pitch) * height], the size given to [new[]]. *)
Definition array_bytes (row_pitch height : Z) : Z :=
  (to_size_t row_pitch * to_size_t height) mod 2 ^ 64.

(** No request above [PTRDIFF_MAX] bytes is granted. *)
Definition PTRDIFF_MAX : Z := 2 ^ 63 - 1.

#[local] Arguments int_wrap : simpl never.
#[local] Arguments to_size_t : simpl never.
#[local] Arguments array_bytes : simpl never.
#[local] Arguments PTRDIFF_MAX : simpl never.

(** [video::config_t], the fields this backend reads. *)
Record config_t : Type := mk_config {
  cfg_width : Z;
  cfg_height : Z;
  cfg_framerate : Z
}.

(** A block handed out by [new std::uint8_t[n]]: its identity and size. *)
Record block : Type := mk_block {
  blk_id : nat;
  blk_size : Z
}.

(** The allocator: the next fresh identity, the blocks given to
    [delete[]], most recent first, and what the system has to give:
    [grants k n] tells whether a request of [n] bytes is granted once [k]
    blocks have been handed out. *)
Record heap_t : Type := mk_heap {
  next_block : nat;
  freed : list nat;
  grants : nat -> Z -> bool
}.

(** [new std::uint8_t[n]]; [None] when it throws [std::bad_alloc]. *)
Definition new_array (h : heap_t) (n : Z) : option (block * heap_t) :=
  if (n <=? PTRDIFF_MAX) && grants h (next_block h) n
  then Some (mk_block (next_block h) n,
             mk_heap (S (next_block h)) (freed h) (grants h))
  else None.

(** [delete[] p]; deleting the null pointer does nothing. *)
Definition delete_array (h : heap_t) (p : option block) : heap_t :=
  match p with
  | Some b => mk_heap (next_block h) (blk_id b :: freed h) (grants h)
  | None => h
  end.

(** [platf::img_t] *)
Record img_t : Type := mk_img {
  data : option block;
  width : Z;
  height : Z;
  pixel_pitch : Z;
  row_pitch : Z;
  frame_timestamp : option Z
}.

Definition set_data (i : img_t) (d : option block) : img_t :=
  mk_img d (width i) (height i) (pixel_pitch i) (row_pitch i) (frame_timestamp i).
Definition set_width (i : img_t) (w : Z) : img_t :=
  mk_img (data i) w (height i) (pixel_pitch i) (row_pitch i) (frame_timestamp i).
Definition set_height (i : img_t) (h : Z) : img_t :=
  mk_img (data i) (width i) h (pixel_pitch i) (row_pitch i) (frame_timestamp i).
Definition set_pixel_pitch (i : img_t) (p : Z) : img_t :=
  mk_img (data i) (width i) (height i) p (row_pitch i) (frame_timestamp i).
Definition set_row_pitch (i : img_t) (p : Z) : img_t :=
  mk_img (data i) (width i) (height i) (pixel_pitch i) p (frame_timestamp i).
Definition set_frame_timestamp (i : img_t) (t : option Z) : img_t :=
  mk_img (data i) (width i) (height i) (pixel_pitch i) (row_pitch i) t.

(** [picamera_frame_t::picamera_frame_t()]: an [img_t] with no pixel data
    and [pixel_pitch = 4]. *)
Definition picamera_frame_t : img_t :=
  mk_img None 0 0 4 0 None.

(** ** The multimedia library *)

(** [AVERROR(EAGAIN)] on Linux. *)
Definition EAGAIN : Z := 11.
Definition AVERROR (e : Z) : Z := - e.

Record AVCodecParameters : Type := mk_codecpar {
  par_codec_id : Z;
  par_width : Z;
  par_height : Z
}.

Record AVStream : Type := mk_stream {
  codecpar : AVCodecParameters
}.

Record AVFormatContext : Type := mk_format {
  streams : list AVStream
}.

(** [AVDictionary]: the entries in insertion order. *)
Definition AVDictionary : Type := list (string * string).

(** [av_dict_set(&d, key, value, 0)]: an entry under the same key is
    replaced. *)
Definition av_dict_set (d : AVDictionary) (key value : string) : AVDictionary :=
  (filter (fun e => negb (String.eqb (fst e) key)) d ++ [(key, value)])%list.

(** [std::to_string(int)] *)
Definition to_string (n : Z) : string :=
  NilZero.string_of_int (Z.to_int n).

(** The answers of libavformat to one [format_context_t::open].
    [avformat_open_input] gives its return code and, when that is not
    negative, the context it opened; on failure it leaves the caller's
    pointer null. *)
Record avformat_t : Type := mk_avformat {
  av_find_input_format : string -> bool;
  avformat_open_input : string -> AVDictionary -> Z * AVFormatContext;
  avformat_find_stream_info : AVFormatContext -> Z;
  av_find_best_stream : AVFormatContext -> Z
}.

(** The answers of libavcodec to one [codec_context_t::open]. *)
Record avcodec_t : Type := mk_avcodec {
  avcodec_find_decoder : Z -> bool;
  avcodec_alloc_context3 : bool;
  avcodec_parameters_to_context : AVCodecParameters -> Z;
  avcodec_open2 : Z
}.

(** ** Device Session: [format_context_t] *)

Record format_context_t : Type := mk_format_context {
  ctx : option AVFormatContext;
  stream_index : Z
}.

(** The member initialisers [ctx {nullptr}], [stream_index {-1}]. *)
Definition format_context_init : format_context_t :=
  mk_format_context None (-1).

Definition open_options (cfg : config_t) : AVDictionary :=
  let options : AVDictionary := [] in
  let options :=
    if (0 <? cfg_width cfg) && (0 <? cfg_height cfg)
    then av_dict_set options "video_size"
           (to_string (cfg_width cfg) ++ "x" ++ to_string (cfg_height cfg))
    else options in
  if 0 <? cfg_framerate cfg
  then av_dict_set options "framerate" (to_string (cfg_framerate cfg))
  else options.

(** [format_context_t::open] *)
Definition open (lib : avformat_t) (f : format_context_t)
    (device : string) (cfg : config_t) : bool * format_context_t :=
  let options := open_options cfg in
  if negb (av_find_input_format lib "v4l2") then (false, f)
  else
    let '(result, opened) := avformat_open_input lib device options in
    if result <? 0 then (false, mk_format_context None (stream_index f))
    else
      let f := mk_format_context (Some opened) (stream_index f) in
      let result := avformat_find_stream_info lib opened in
      if result <? 0 then (false, f)
      else
        let f := mk_format_context (ctx f) (av_find_best_stream lib opened) in
        if stream_index f <? 0 then (false, f)
        else (true, f).

(** [format_context_t::close] *)
Definition close (f : format_context_t) : format_context_t :=
  match ctx f with
  | Some _ => mk_format_context None (-1)
  | None => f
  end.

(** [format_context_t::stream]; [av_find_best_stream] only answers with
    the index of a stream of the context. *)
Definition stream (f : format_context_t) : option AVStream :=
  match ctx f with
  | None => None
  | Some c =>
      if stream_index f <? 0 then None
      else nth_error (streams c) (Z.to_nat (stream_index f))
  end.

(** [format_context_t::index] *)
Definition index (f : format_context_t) : Z := stream_index f.

(** ** Decode Session: [codec_context_t] *)

Record AVCodecContext : Type := mk_codec {
  cc_params : option AVCodecParameters;
  cc_opened : bool
}.

Record codec_context_t : Type := mk_codec_context {
  codec_ctx : option AVCodecContext
}.

(** [codec_context_t::open] *)
Definition codec_open (lib : avcodec_t) (c : codec_context_t)
    (params : option AVCodecParameters) : bool * codec_context_t :=
  match params with
  | None => (false, c)
  | Some p =>
      if negb (avcodec_find_decoder lib (par_codec_id p)) then (false, c)
      else if negb (avcodec_alloc_context3 lib) then (false, mk_codec_context None)
      else
        let c := mk_codec_context (Some (mk_codec None false)) in
        if avcodec_parameters_to_context lib p <? 0 then (false, c)
        else
          let c := mk_codec_context (Some (mk_codec (Some p) false)) in
          if avcodec_open2 lib <? 0 then (false, c)
          else (true, mk_codec_context (Some (mk_codec (Some p) true)))
  end.

(** ** Conversion Session: [scale_context_t] *)

Definition AV_PIX_FMT_BGRA : Z := 28.
Definition SWS_BILINEAR : Z := 2.

(** A converter of libswscale: its identity (the number of converters
    built before it) and the configuration it was built for. *)
Record SwsContext : Type := mk_sws {
  sws_id : nat;
  sws_srcW : Z;
  sws_srcH : Z;
  sws_srcFormat : Z;
  sws_dstW : Z;
  sws_dstH : Z;
  sws_dstFormat : Z;
  sws_flags : Z
}.

Definition sws_same_config (c : SwsContext)
    (srcW srcH srcFormat dstW dstH dstFormat flags : Z) : bool :=
  (sws_srcW c =? srcW) && (sws_srcH c =? srcH)
  && (sws_srcFormat c =? srcFormat)
  && (sws_dstW c =? dstW) && (sws_dstH c =? dstH)
  && (sws_dstFormat c =? dstFormat) && (sws_flags c =? flags).

(** What the process holds besides the display: the allocator and the
    number of converters libswscale has built so far. *)
Record runtime_t : Type := mk_runtime {
  heap : heap_t;
  sws_built : nat
}.

(** [sws_getCachedContext] of libswscale, called with no filters and the
    default parameters: a context whose configuration differs is freed; a
    context is built when none is left, which the library may refuse
    ([can_build = false]). *)
Definition sws_getCachedContext (can_build : bool) (built : nat)
    (context : option SwsContext)
    (srcW srcH srcFormat dstW dstH dstFormat flags : Z)
    : option SwsContext * nat :=
  let context :=
    match context with
    | Some c =>
        if sws_same_config c srcW srcH srcFormat dstW dstH dstFormat flags
        then Some c else None
    | None => None
    end in
  match context with
  | Some c => (Some c, built)
  | None =>
      if can_build
      then (Some (mk_sws built srcW srcH srcFormat dstW dstH dstFormat flags),
            S built)
      else (None, built)
  end.

Record scale_context_t : Type := mk_scale_context {
  sws_ctx : option SwsContext
}.

(** [scale_context_t::configure] *)
Definition configure (can_build : bool) (built : nat) (s : scale_context_t)
    (src_w src_h src_fmt dst_w dst_h : Z) : bool * scale_context_t * nat :=
  let '(c, built) :=
    sws_getCachedContext can_build built (sws_ctx s)
      src_w src_h src_fmt dst_w dst_h AV_PIX_FMT_BGRA SWS_BILINEAR in
  let s := mk_scale_context c in
  match sws_ctx s with
  | None => (false, s, built)
  | Some _ => (true, s, built)
  end.

(** ** The display: [picamera_display_t] *)

Definition DEFAULT_DEVICE : string := "/dev/video0".

(** [std::chrono::nanoseconds {1s}] *)
Definition one_second : Z := 1000000000.

Record picamera_display_t : Type := mk_display {
  display_width : Z;
  display_height : Z;
  env_width : Z;
  env_height : Z;
  device : string;
  format : format_context_t;
  codec : codec_context_t;
  scaler : scale_context_t;
  delay : Z
}.

Definition set_geometry (d : picamera_display_t) (w h : Z) : picamera_display_t :=
  mk_display w h w h (device d) (format d) (codec d) (scaler d) (delay d).
Definition set_format (d : picamera_display_t) (f : format_context_t) : picamera_display_t :=
  mk_display (display_width d) (display_height d) (env_width d) (env_height d)
    (device d) f (codec d) (scaler d) (delay d).
Definition set_codec (d : picamera_display_t) (c : codec_context_t) : picamera_display_t :=
  mk_display (display_width d) (display_height d) (env_width d) (env_height d)
    (device d) (format d) c (scaler d) (delay d).
Definition set_scaler (d : picamera_display_t) (s : scale_context_t) : picamera_display_t :=
  mk_display (display_width d) (display_height d) (env_width d) (env_height d)
    (device d) (format d) (codec d) s (delay d).
Definition set_delay (d : picamera_display_t) (t : Z) : picamera_display_t :=
  mk_display (display_width d) (display_height d) (env_width d) (env_height d)
    (device d) (format d) (codec d) (scaler d) t.

(** The constructor, with the member initialiser of [delay],
    [std::chrono::nanoseconds {1s} / 30].  [display_t] leaves [env_width]
    and [env_height] unset; they are 0 here. *)
Definition picamera_display (device_path : string) : picamera_display_t :=
  mk_display 1280 720 0 0 device_path format_context_init
    (mk_codec_context None) (mk_scale_context None) (Z.quot one_second 30).

(** [picamera_display_t::init] *)
Definition init (fl : avformat_t) (cl : avcodec_t) (d : picamera_display_t)
    (cfg : config_t) : bool * picamera_display_t :=
  let d := set_delay d (Z.quot one_second (Z.max 1 (cfg_framerate cfg))) in
  let '(opened, f) := open fl (format d) (device d) cfg in
  let d := set_format d f in
  if negb opened then (false, d)
  else
    match stream (format d) with
    | None => (false, d)
    | Some st =>
        let d := set_geometry d (par_width (codecpar st)) (par_height (codecpar st)) in
        let '(decoding, c) := codec_open cl (codec d) (Some (codecpar st)) in
        let d := set_codec d c in
        if negb decoding then (false, d) else (true, d)
    end.

(** [picamera_display_t::alloc_img]; [None] when [new[]] throws, which
    destroys the image under construction. *)
Definition alloc_img (d : picamera_display_t) (h : heap_t)
    : option (img_t * heap_t) :=
  let image := picamera_frame_t in
  let image := set_row_pitch image (int_wrap (display_width d * 4)) in
  let image := set_height image (display_height d) in
  match new_array h (array_bytes (row_pitch image) (height image)) with
  | Some (b, h) => Some (set_data image (Some b), h)
  | None => None
  end.

(** [picamera_display_t::dummy_img]: the value returned ([None] when
    [new[]] throws), the image and the allocator afterwards.  The zero
    fill does not show in the model, which does not hold pixel values. *)
Definition dummy_img (d : picamera_display_t) (h : heap_t) (img : option img_t)
    : option Z * option img_t * heap_t :=
  match img with
  | None => (Some (-1), None, h)
  | Some i =>
      match data i with
      | None =>
          let i := set_row_pitch i (int_wrap (display_width d * 4)) in
          let i := set_height i (display_height d) in
          match new_array h (array_bytes (row_pitch i) (height i)) with
          | Some (b, h) => (Some 0, Some (set_data i (Some b)), h)
          | None => (None, Some i, h)
          end
      | Some _ => (Some 0, Some i, h)
      end
  end.

(** ** The fill step: [picamera_display_t::read_frame] *)

Record AVFrame : Type := mk_frame {
  frame_width : Z;
  frame_height : Z;
  frame_format : Z
}.

(** The answers of the libraries and of the clock during one
    [read_frame]; an answer is read only if the call is reached. *)
Record frame_io : Type := mk_frame_io {
  read_result : Z;
  packet_stream_index : Z;
  send_result : Z;
  frame_allocated : bool;
  receive_result : Z;
  received : AVFrame;
  sws_can_build : bool;
  scale_result : Z;
  stamp : Z
}.

(** The calls that leave the display, in the order they are made. *)
Inductive call : Type :=
  | av_read_frame
  | av_packet_unref
  | avcodec_send_packet
  | av_frame_alloc
  | avcodec_receive_frame
  | sws_getCachedContext_call
  | sws_scale
  | sleep_for (d : Z)
  | pull_free_image_cb
  | push_captured_image_cb (img : nat) (is_new : bool).

Definition fill_result : Type :=
  (outcome * picamera_display_t * runtime_t * img_t * list call)%type.

Definition is_null {A : Type} (p : option A) : bool :=
  match p with
  | None => true
  | Some _ => false
  end.

(** [read_frame]: what the call ends in, and the display, the allocator,
    the image and the calls made by then.  When [new[]] throws, the old
    block is already deleted, the image has its new row pitch and height
    and still points to the deleted block, and the exception leaves
    [read_frame] (and then [capture]). *)
Definition read_frame (io : frame_io) (d : picamera_display_t)
    (rt : runtime_t) (img : img_t) : fill_result :=
  let result := read_result io in
  let calls := [av_read_frame] in
  if result <? 0 then
    if result =? AVERROR EAGAIN then (timeout, d, rt, img, calls)
    else (error, d, rt, img, calls)
  else if negb (packet_stream_index io =? index (format d)) then
    (timeout, d, rt, img, calls ++ [av_packet_unref])%list
  else
    let result := send_result io in
    let calls := (calls ++ [avcodec_send_packet; av_packet_unref])%list in
    if result <? 0 then (error, d, rt, img, calls)
    else
      let calls := (calls ++ [av_frame_alloc])%list in
      if negb (frame_allocated io) then (error, d, rt, img, calls)
      else
        let result := receive_result io in
        let calls := (calls ++ [avcodec_receive_frame])%list in
        if result =? AVERROR EAGAIN then (timeout, d, rt, img, calls)
        else if result <? 0 then (error, d, rt, img, calls)
        else
          let frame := received io in
          let d := set_geometry d (frame_width frame) (frame_height frame) in
          let '(configured, s, built) :=
            configure (sws_can_build io) (sws_built rt) (scaler d)
              (frame_width frame) (frame_height frame) (frame_format frame)
              (frame_width frame) (frame_height frame) in
          let d := set_scaler d s in
          let rt := mk_runtime (heap rt) built in
          let calls := (calls ++ [sws_getCachedContext_call])%list in
          if negb configured then (error, d, rt, img, calls)
          else
            let '(allocated, img, rt) :=
              if is_null (data img)
                 || negb (row_pitch img =? int_wrap (frame_width frame * 4))
                 || negb (height img =? frame_height frame)
              then
                let h := delete_array (heap rt) (data img) in
                let img := set_row_pitch img (int_wrap (frame_width frame * 4)) in
                let img := set_height img (frame_height frame) in
                match new_array h (array_bytes (row_pitch img) (height img)) with
                | Some (b, h) =>
                    (true, set_data img (Some b), mk_runtime h (sws_built rt))
                | None => (false, img, mk_runtime h (sws_built rt))
                end
              else (true, img, rt) in
            if negb allocated then (bad_alloc, d, rt, img, calls)
            else
            let img := set_width img (frame_width frame) in
            let img := set_height img (frame_height frame) in
            let img := set_pixel_pitch img 4 in
            let calls := (calls ++ [sws_scale])%list in
            if scale_result io <=? 0 then (error, d, rt, img, calls)
            else
              let img := set_frame_timestamp img (Some (stamp io)) in
              (ok, d, rt, img, calls).

Definition fill_status (r : fill_result) : outcome :=
  let '(status, _, _, _, _) := r in status.
Definition fill_display (r : fill_result) : picamera_display_t :=
  let '(_, d, _, _, _) := r in d.
Definition fill_runtime (r : fill_result) : runtime_t :=
  let '(_, _, rt, _, _) := r in rt.
Definition fill_image (r : fill_result) : img_t :=
  let '(_, _, _, img, _) := r in img.
Definition fill_calls (r : fill_result) : list call :=
  let '(_, _, _, _, calls) := r in calls.

(** ** The paced loop: [picamera_display_t::capture] *)

(** What one iteration of the loop is told from outside: the clock at its
    top, the answer of [pull_free_image_cb] (the image handed out, or
    [None] for a refusal), the answers during [read_frame], and the answer
    of [push_captured_image_cb]. *)
Record tick : Type := mk_tick {
  now : Z;
  pull : option nat;
  io : frame_io;
  push : bool
}.

(** The images are shared with the consumer: the loop holds pointers (here
    numbers) into [images]. *)
Record capture_state : Type := mk_state {
  disp : picamera_display_t;
  rt : runtime_t;
  images : nat -> img_t;
  next_frame : Z
}.

Definition store (images : nat -> img_t) (p : nat) (i : img_t) : nat -> img_t :=
  fun q => if Nat.eqb q p then i else images q.

(** The sleep at the top of the loop body: [sleep_for] is called when the
    scheduled tick is still ahead. *)
Definition wait (next_frame now : Z) : list call :=
  if next_frame >? now then [sleep_for (next_frame - now)] else [].

(** The pacing step of the loop body: [next_frame += delay], then the
    resynchronisation. *)
Definition pace (next_frame now delay : Z) : Z :=
  let next_frame := next_frame + delay in
  if next_frame <? now then now + delay else next_frame.

(** The body of [while (true)]: the state after it, the calls it made, and
    the value it returns if it leaves the loop. *)
Definition iteration (s : capture_state) (t : tick)
    : capture_state * list call * option outcome :=
  let now := now t in
  let calls := wait (next_frame s) now in
  let next := pace (next_frame s) now (delay (disp s)) in
  let s := mk_state (disp s) (rt s) (images s) next in
  let calls := (calls ++ [pull_free_image_cb])%list in
  match pull t with
  | None => (s, calls, Some interrupted)
  | Some img_out =>
      let '(status, d, r, img, filled) :=
        read_frame (io t) (disp s) (rt s) (images s img_out) in
      let s := mk_state d r (store (images s) img_out img) next in
      let calls := (calls ++ filled)%list in
      match status with
      | returns ok =>
          let calls := (calls ++ [push_captured_image_cb img_out true])%list in
          if negb (push t) then (s, calls, Some ok) else (s, calls, None)
      | returns timeout =>
          let calls := (calls ++ [push_captured_image_cb img_out false])%list in
          if negb (push t) then (s, calls, Some ok) else (s, calls, None)
      | _ => (s, calls, Some status)
      end
  end.

(** The loop over the iterations the outside answers for; [None] when it
    is still running after the last of them, [Some bad_alloc] when the
    exception of a fill leaves it. *)
Fixpoint loop (s : capture_state) (ticks : list tick)
    : capture_state * list call * option outcome :=
  match ticks with
  | [] => (s, [], None)
  | t :: ticks =>
      let '(s, calls, returned) := iteration s t in
      match returned with
      | Some e => (s, calls, Some e)
      | None =>
          let '(s, later, returned) := loop s ticks in
          (s, (calls ++ later)%list, returned)
      end
  end.

(** [capture], entered when the steady clock reads [start]. *)
Definition capture (d : picamera_display_t) (r : runtime_t)
    (imgs : nat -> img_t) (start : Z) (ticks : list tick)
    : capture_state * list call * option outcome :=
  let next_frame := start in
  loop (mk_state d r imgs next_frame) ticks.

(** The buffers given to [push_captured_image_cb] among [calls], with
    their [is_new] flag, in order. *)
Fixpoint pushes (calls : list call) : list (nat * bool) :=
  match calls with
  | [] => []
  | push_captured_image_cb img is_new :: calls => (img, is_new) :: pushes calls
  | _ :: calls => pushes calls
  end.

(** ** The facade: [initialize], [display_names], [create_display] *)

(** The file system as [std::filesystem::exists] sees it: [Some b] when
    the call answers [b] for a path, [None] when it throws
    [std::filesystem::filesystem_error] because the path cannot be
    examined.  Nothing in this backend catches that exception. *)
Definition filesystem : Type := string -> option bool.

(** [initialize]; [None] when the exception leaves it. *)
Definition initialize (fs : filesystem) : option bool :=
  fs DEFAULT_DEVICE.

Definition device_path (idx : Z) : string :=
  "/dev/video" ++ to_string idx.

(** [display_names]; [None] when the exception leaves it, at the first
    path that cannot be examined. *)
Definition display_names (fs : filesystem) : option (list string) :=
  let devices :=
    fold_left
      (fun devices idx =>
         match devices with
         | None => None
         | Some devices =>
             let path := device_path idx in
             match fs path with
             | None => None
             | Some true => Some (devices ++ [path])%list
             | Some false => Some devices
             end
         end)
      [0; 1; 2; 3; 4; 5; 6; 7] (Some []) in
  match devices with
  | None => None
  | Some [] => Some [DEFAULT_DEVICE]
  | Some devices => Some devices
  end.

(** [create_display]; [None] is the null pointer. *)
Definition create_display (fl : avformat_t) (cl : avcodec_t)
    (device : string) (config : config_t) : option picamera_display_t :=
  let resolved := if String.eqb device EmptyString then DEFAULT_DEVICE else device in
  let display := picamera_display resolved in
  let '(initialised, display) := init fl cl display config in
  if negb initialised then None else Some display.

(** ** Observations on calls and buffers *)

(** The number of times [pull_free_image_cb] is called among [calls]. *)
Fixpoint pulls (calls : list call) : nat :=
  match calls with
  | [] => 0%nat
  | pull_free_image_cb :: calls => S (pulls calls)
  | _ :: calls => pulls calls
  end.

(** The durations given to [sleep_for] among [calls], in order. *)
Fixpoint sleeps (calls : list call) : list Z :=
  match calls with
  | [] => []
  | sleep_for d :: calls => d :: sleeps calls
  | _ :: calls => sleeps calls
  end.

(** The number of times [av_packet_unref] is called among [calls]. *)
Fixpoint unrefs (calls : list call) : nat :=
  match calls with
  | [] => 0%nat
  | av_packet_unref :: calls => S (unrefs calls)
  | _ :: calls => unrefs calls
  end.

(** The pixel data of an image, when it has some, is a block of
    [static_cast<size_t>(row_pitch) * height] bytes: what [sws_scale] and
    [memset] write to. *)
Definition buffer_sized (img : img_t) : Prop :=
  match data img with
  | Some b => blk_size b = array_bytes (row_pitch img) (height img)
  | None => True
  end.

(** How the calls of a run end, for each value it can return. *)
Definition ends_as (calls : list call) (result : option outcome) : Prop :=
  match result with
  | None => True
  | Some (returns ok) =>
      exists front p is_new,
        calls = (front ++ [push_captured_image_cb p is_new])%list
  | Some (returns interrupted) =>
      exists front, calls = (front ++ [pull_free_image_cb])%list
  | Some (returns error) | Some bad_alloc =>
      exists front c,
        calls = (front ++ [c])%list /\ pushes [c] = [] /\ pulls [c] = 0%nat
  | Some (returns timeout) => False
  end.

(** ** Sample environments *)

Definition AVERROR_STREAM_NOT_FOUND : Z := -1381258232.
Definition EIO : Z := 5.

(** A camera that negotiates one raw 1280 by 720 stream. *)
Definition camera_context : AVFormatContext :=
  mk_format [mk_stream (mk_codecpar 13 1280 720)].

Definition camera : avformat_t :=
  mk_avformat (fun name => String.eqb name "v4l2")
    (fun _ _ => (0, camera_context)) (fun _ => 0) (fun _ => 0).

(** The same camera when probing its streams fails. *)
Definition camera_probe_fails : avformat_t :=
  mk_avformat (fun name => String.eqb name "v4l2")
    (fun _ _ => (0, camera_context)) (fun _ => AVERROR EIO) (fun _ => 0).

(** A device that opens but carries no video stream. *)
Definition camera_no_video : avformat_t :=
  mk_avformat (fun name => String.eqb name "v4l2")
    (fun _ _ => (0, mk_format [])) (fun _ => 0)
    (fun _ => AVERROR_STREAM_NOT_FOUND).

Definition decoder : avcodec_t :=
  mk_avcodec (fun _ => true) true (fun _ => 0) 0.

Definition hd_config : config_t := mk_config 1280 720 0.

(** The display of that camera once [init] has run at 30 frames per
    second, an allocator, and a consumer with two images of the display's
    geometry. *)
Definition running_display : picamera_display_t :=
  snd (init camera decoder (picamera_display DEFAULT_DEVICE)
         (mk_config 1280 720 30)).

Definition runtime0 : runtime_t :=
  mk_runtime (mk_heap 2 [] (fun _ _ => true)) 0.

Definition pool : nat -> img_t :=
  fun p =>
    if Nat.ltb p 2
    then match alloc_img running_display (mk_heap p [] (fun _ _ => true)) with
         | Some (image, _) => image
         | None => picamera_frame_t
         end
    else picamera_frame_t.

(** Answers of the libraries: a decoded 1280 by 720 frame; nothing to
    read yet; a packet of another stream. *)
Definition io_frame : frame_io :=
  mk_frame_io 0 0 0 true 0 (mk_frame 1280 720 0) true 720 5.

Definition io_again : frame_io :=
  mk_frame_io (AVERROR EAGAIN) 0 0 true 0 (mk_frame 0 0 0) true 0 0.

Definition io_foreign : frame_io :=
  mk_frame_io 0 1 0 true 0 (mk_frame 0 0 0) true 0 0.

(** A buffer that has the geometry of that frame but no pixel data. *)
Definition empty_image : img_t := mk_img None 1280 720 4 5120 None.

(** A file system with no video device, on which /dev/video3 cannot be
    examined. *)
Definition unreadable_video3 : filesystem :=
  fun path => if String.eqb path "/dev/video3" then None else Some false.

(** A file system whose only video device is /dev/video2. *)
Definition only_video2 : filesystem :=
  fun path => Some (String.eqb path "/dev/video2").

(** A decoded frame so wide that four times its width is not an [int]. *)
Definition io_wide : frame_io :=
  mk_frame_io 0 0 0 true 0 (mk_frame 1073741825 2 0) true 2 5.

(** * Properties *)

(** ** Frame rate and delay *)

Lemma init_delay (fl : avformat_t) (cl : avcodec_t) (d : picamera_display_t)
    (cfg : config_t) :
  delay (snd (init fl cl d cfg))
  = Z.quot one_second (Z.max 1 (cfg_framerate cfg)).
Proof.
  unfold init.
  destruct (open fl _ _ cfg) as [opened f].
  destruct opened; cbn [negb]; [|reflexivity].
  destruct (stream _) as [st|]; [|reflexivity].
  destruct (codec_open cl _ _) as [decoding c].
  destruct decoding; reflexivity.
Qed.

Lemma init_delay_nonneg (fl : avformat_t) (cl : avcodec_t)
    (d : picamera_display_t) (cfg : config_t) :
  0 <= delay (snd (init fl cl d cfg)).
Proof.
  rewrite init_delay.
  apply Z.quot_pos; unfold one_second; lia.
Qed.

(** C1, as stated, fails: with frame rate 0, [init] leaves a delay of one
    second, not the 1/30 second the display is constructed with. *)
Lemma init_framerate_zero_delay_not_default :
  cfg_framerate hd_config <= 0
  /\ delay (snd (init camera decoder (picamera_display DEFAULT_DEVICE) hd_config))
     = one_second
  /\ delay (snd (init camera decoder (picamera_display DEFAULT_DEVICE) hd_config))
     <> Z.quot one_second 30.
Proof.
  repeat split; vm_compute; congruence.
Qed.

(** C1, amended: for every configuration whose frame rate is at most 0,
    [init] sets the inter-frame delay to one second, as if the frame rate
    were 1; the delay of 1/30 second (33333333 ns) is that of a display
    on which [init] has not run. *)
Theorem init_nonpositive_framerate_delay (fl : avformat_t) (cl : avcodec_t)
    (d : picamera_display_t) (cfg : config_t) :
  cfg_framerate cfg <= 0 ->
  delay (snd (init fl cl d cfg)) = one_second
  /\ delay (snd (init fl cl d cfg))
     = delay (snd (init fl cl d (mk_config (cfg_width cfg) (cfg_height cfg) 1)))
  /\ delay (picamera_display (device d)) = 33333333.
Proof.
  intros Hrate.
  rewrite !init_delay; simpl.
  replace (Z.max 1 (cfg_framerate cfg)) with 1 by lia.
  repeat split.
Qed.

Lemma init_nonpositive_framerate_delay_witness :
  cfg_framerate hd_config <= 0
  /\ delay (snd (init camera decoder (picamera_display DEFAULT_DEVICE) hd_config))
     = one_second.
Proof.
  split; [vm_compute; congruence|].
  apply (init_nonpositive_framerate_delay camera decoder
           (picamera_display DEFAULT_DEVICE) hd_config).
  vm_compute; congruence.
Defined.

(** ** Device Session *)

Lemma close_closed (f : format_context_t) :
  ctx (close f) = None.
Proof.
  unfold close. destruct (ctx f) eqn:E; [reflexivity | exact E].
Qed.

Lemma close_idempotent (f : format_context_t) :
  close (close f) = close f.
Proof.
  unfold close at 1. now rewrite close_closed.
Qed.

Lemma stream_valid_index (f : format_context_t) (st : AVStream) :
  stream f = Some st -> ctx f <> None /\ 0 <= stream_index f.
Proof.
  unfold stream. destruct (ctx f); [|discriminate].
  destruct (stream_index f <? 0) eqn:E; [discriminate|].
  intros _. split; [discriminate | lia].
Qed.

(** C2, as stated, fails: when probing the streams fails, or no video
    stream is found, [open] returns false with the device handle still
    open; in the second case the stream index holds the library's error
    code, not -1. *)
Lemma open_late_failure_keeps_handle :
  (fst (open camera_probe_fails format_context_init DEFAULT_DEVICE hd_config) = false
   /\ ctx (snd (open camera_probe_fails format_context_init DEFAULT_DEVICE hd_config))
      = Some camera_context)
  /\ (fst (open camera_no_video format_context_init DEFAULT_DEVICE hd_config) = false
      /\ ctx (snd (open camera_no_video format_context_init DEFAULT_DEVICE hd_config))
         <> None
      /\ stream_index
           (snd (open camera_no_video format_context_init DEFAULT_DEVICE hd_config))
         <> -1).
Proof.
  repeat split; vm_compute; congruence.
Qed.

(** C2, amended: for every device path and configuration, if [open] on a
    new session fails at any of its four steps it returns false and the
    session has no negotiated stream.  After a failure of the input format
    lookup or of the device open the session is closed (no handle, stream
    index -1).  After a failure of the stream probe the handle the library
    opened is still held and the stream index is still -1; after a failure
    of the video stream search the handle is still held and the stream
    index is the negative value the search answered.  In every case
    [close], which the destructor runs, leaves no handle and the stream
    index -1. *)
Theorem open_failure_session (fl : avformat_t) (device : string)
    (cfg : config_t) :
  let answer := avformat_open_input fl device (open_options cfg) in
  let r := open fl format_context_init device cfg in
  av_find_input_format fl "v4l2" = false
  \/ fst answer < 0
  \/ avformat_find_stream_info fl (snd answer) < 0
  \/ av_find_best_stream fl (snd answer) < 0 ->
  fst r = false
  /\ stream (snd r) = None
  /\ close (snd r) = format_context_init
  /\ (av_find_input_format fl "v4l2" = false \/ fst answer < 0 ->
      snd r = format_context_init)
  /\ (av_find_input_format fl "v4l2" = true -> 0 <= fst answer ->
      ctx (snd r) = Some (snd answer))
  /\ (av_find_input_format fl "v4l2" = true -> 0 <= fst answer ->
      avformat_find_stream_info fl (snd answer) < 0 ->
      snd r = mk_format_context (Some (snd answer)) (-1))
  /\ (av_find_input_format fl "v4l2" = true -> 0 <= fst answer ->
      0 <= avformat_find_stream_info fl (snd answer) ->
      snd r = mk_format_context (Some (snd answer))
                (av_find_best_stream fl (snd answer))
      /\ stream_index (snd r) < 0).
Proof.
  intros answer r Hfail. subst answer r. unfold open.
  destruct (av_find_input_format fl "v4l2") eqn:Hfmt; cbn [negb].
  2: { cbn [fst snd]. repeat split; try reflexivity; intros; discriminate. }
  destruct (avformat_open_input fl device (open_options cfg))
    as [result opened] eqn:Hopen.
  cbn [fst snd] in *.
  destruct (Z.ltb_spec result 0) as [Hres|Hres].
  { cbn [fst snd]. repeat split; try reflexivity; intros; lia. }
  destruct (Z.ltb_spec (avformat_find_stream_info fl opened) 0)
    as [Hprobe|Hprobe].
  { cbn [fst snd].
    repeat split; try reflexivity; try (intros; reflexivity);
      intros; lia. }
  cbn [stream_index ctx].
  destruct (Z.ltb_spec (av_find_best_stream fl opened) 0) as [Hbest|Hbest].
  - cbn [fst snd].
    assert (Hstream : stream (mk_format_context (Some opened)
                                (av_find_best_stream fl opened)) = None).
    { unfold stream. cbn [ctx stream_index].
      destruct (Z.ltb_spec (av_find_best_stream fl opened) 0);
        [reflexivity | lia]. }
    repeat split; try reflexivity; try exact Hstream;
      try (intros; reflexivity); intros; cbn [stream_index]; lia.
  - destruct Hfail as [H|[H|[H|H]]]; try discriminate; lia.
Qed.

Lemma open_failure_session_witness :
  fst (open camera_probe_fails format_context_init DEFAULT_DEVICE hd_config) = false
  /\ close (snd (open camera_probe_fails format_context_init DEFAULT_DEVICE hd_config))
     = format_context_init.
Proof.
  assert (H : av_find_input_format camera_probe_fails "v4l2" = false
    \/ fst (avformat_open_input camera_probe_fails DEFAULT_DEVICE
              (open_options hd_config)) < 0
    \/ avformat_find_stream_info camera_probe_fails
         (snd (avformat_open_input camera_probe_fails DEFAULT_DEVICE
                 (open_options hd_config))) < 0
    \/ av_find_best_stream camera_probe_fails
         (snd (avformat_open_input camera_probe_fails DEFAULT_DEVICE
                 (open_options hd_config))) < 0)
    by (right; right; left; vm_compute; reflexivity).
  pose proof (open_failure_session camera_probe_fails DEFAULT_DEVICE hd_config H)
    as (Hr & _ & Hc & _).
  split; [exact Hr | exact Hc].
Defined.

(** A successful [open] needs all four steps, and then the session has a
    handle and a stream index that is not negative. *)
Lemma open_success (fl : avformat_t) (device : string) (cfg : config_t) :
  let answer := avformat_open_input fl device (open_options cfg) in
  let r := open fl format_context_init device cfg in
  fst r = true <->
  av_find_input_format fl "v4l2" = true
  /\ 0 <= fst answer
  /\ 0 <= avformat_find_stream_info fl (snd answer)
  /\ 0 <= av_find_best_stream fl (snd answer).
Proof.
  intros answer r. subst answer r. unfold open.
  destruct (av_find_input_format fl "v4l2"); cbn [negb].
  - destruct (avformat_open_input fl device (open_options cfg))
      as [result opened].
    cbn [fst snd stream_index ctx].
    destruct (Z.ltb_spec result 0); cbn [fst].
    + split; [discriminate | lia].
    + destruct (Z.ltb_spec (avformat_find_stream_info fl opened) 0); cbn [fst].
      * split; [discriminate | lia].
      * destruct (Z.ltb_spec (av_find_best_stream fl opened) 0); cbn [fst].
        -- split; [discriminate | lia].
        -- split; [lia | reflexivity].
  - cbn [fst]. split; [discriminate | intros [H _]; discriminate].
Qed.

(** ** The fill step *)

Ltac new_array_inv :=
  repeat match goal with
    | H : new_array _ _ = Some _ |- _ =>
        unfold new_array in H;
        destruct (_ && _) in H; [|discriminate H];
        injection H as <- <-
    end.

Ltac fill_cases :=
  unfold read_frame;
  repeat match goal with
    | |- context [configure ?a ?b ?c ?d ?e ?f ?g ?h] =>
        destruct (configure a b c d e f g h) as [[? ?] ?] eqn:?
    | |- context [new_array ?h ?n] =>
        destruct (new_array h n) as [[? ?]|] eqn:?
    | |- context [if ?b then _ else _] => destruct b eqn:?
    end;
  try match goal with
      | H : negb false = false |- _ => discriminate H
      | H : negb true = true |- _ => discriminate H
      end.

Lemma read_frame_delay (io : frame_io) (d : picamera_display_t)
    (rt : runtime_t) (img : img_t) :
  delay (fill_display (read_frame io d rt img)) = delay d.
Proof.
  fill_cases; reflexivity.
Qed.

Lemma read_frame_timeout_unchanged (io : frame_io) (d : picamera_display_t)
    (rt : runtime_t) (img : img_t) :
  fill_status (read_frame io d rt img) = timeout ->
  fill_display (read_frame io d rt img) = d
  /\ fill_runtime (read_frame io d rt img) = rt
  /\ fill_image (read_frame io d rt img) = img.
Proof.
  fill_cases; cbn; intros H; try discriminate H; repeat split.
Qed.

Lemma read_frame_timeout_any_buffer (io : frame_io) (d : picamera_display_t)
    (rt rt' : runtime_t) (img img' : img_t) :
  fill_status (read_frame io d rt img) = timeout ->
  fill_status (read_frame io d rt' img') = timeout.
Proof.
  unfold read_frame.
  destruct (read_result io <? 0).
  { destruct (read_result io =? AVERROR EAGAIN); exact (fun H => H). }
  destruct (negb (packet_stream_index io =? index (format d))).
  { exact (fun H => H). }
  destruct (send_result io <? 0); [exact (fun H => H)|].
  destruct (negb (frame_allocated io)); [exact (fun H => H)|].
  destruct (receive_result io =? AVERROR EAGAIN); [exact (fun H => H)|].
  destruct (receive_result io <? 0); [exact (fun H => H)|].
  intros H. exfalso. revert H.
  repeat match goal with
    | |- context [configure ?a ?b ?c ?d ?e ?f ?g ?h] =>
        destruct (configure a b c d e f g h) as [[? ?] ?] eqn:?
    | |- context [new_array ?h ?n] =>
        destruct (new_array h n) as [[? ?]|] eqn:?
    | |- context [if ?b then _ else _] => destruct b eqn:?
    end; cbn; discriminate.
Qed.

(** C10: a packet that was read but belongs to another stream than the
    negotiated one is released without reaching the decoder, and the fill
    step answers [timeout], leaving display, allocator and buffer as they
    were. *)
Theorem read_frame_foreign_packet (io : frame_io) (d : picamera_display_t)
    (rt : runtime_t) (img : img_t) :
  0 <= read_result io ->
  packet_stream_index io <> index (format d) ->
  read_frame io d rt img = (timeout, d, rt, img, [av_read_frame; av_packet_unref])
  /\ ~ In avcodec_send_packet (fill_calls (read_frame io d rt img)).
Proof.
  intros Hread Hindex.
  assert (E : read_frame io d rt img
              = (timeout, d, rt, img, [av_read_frame; av_packet_unref])).
  { unfold read_frame.
    destruct (Z.ltb_spec (read_result io) 0); [lia|].
    destruct (Z.eqb_spec (packet_stream_index io) (index (format d)));
      [contradiction | reflexivity]. }
  split; [exact E|].
  rewrite E. cbn. intros [H|[H|[]]]; discriminate H.
Qed.

(** ** The paced loop *)

Lemma pushes_app (a b : list call) :
  pushes (a ++ b) = (pushes a ++ pushes b)%list.
Proof.
  induction a as [|c a IH]; [reflexivity|].
  destruct c; cbn; now rewrite ?IH.
Qed.

Lemma read_frame_pushes (io : frame_io) (d : picamera_display_t)
    (rt : runtime_t) (img : img_t) :
  pushes (fill_calls (read_frame io d rt img)) = [].
Proof.
  fill_cases; reflexivity.
Qed.

Lemma wait_pushes (next now : Z) : pushes (wait next now) = [].
Proof.
  unfold wait. destruct (next >? now); reflexivity.
Qed.

(** The loop body when the consumer refuses a buffer. *)
Lemma iteration_refused (s : capture_state) (t : tick) :
  pull t = None ->
  iteration s t
  = (mk_state (disp s) (rt s) (images s)
       (pace (next_frame s) (now t) (delay (disp s))),
     (wait (next_frame s) (now t) ++ [pull_free_image_cb])%list,
     Some interrupted).
Proof.
  intros H. unfold iteration. now rewrite H.
Qed.

(** The loop body when the consumer hands out the image [p]. *)
Lemma iteration_pulled (s : capture_state) (t : tick) (p : nat) :
  pull t = Some p ->
  iteration s t
  = let filled := read_frame (io t) (disp s) (rt s) (images s p) in
    (mk_state (fill_display filled) (fill_runtime filled)
       (store (images s) p (fill_image filled))
       (pace (next_frame s) (now t) (delay (disp s))),
     ((wait (next_frame s) (now t) ++ [pull_free_image_cb])
      ++ fill_calls filled
      ++ match fill_status filled with
         | returns ok => [push_captured_image_cb p true]
         | returns timeout => [push_captured_image_cb p false]
         | _ => []
         end)%list,
     match fill_status filled with
     | returns ok | returns timeout => if push t then None else Some ok
     | e => Some e
     end).
Proof.
  intros H. unfold iteration. rewrite H. cbn [disp rt images].
  destruct (read_frame _ _ _ _) as [[[[status d] r] img] filled].
  cbn [fill_display fill_runtime fill_image fill_calls fill_status].
  destruct status as [[| | |]|]; try destruct (push t); cbn [negb];
    rewrite ?app_nil_r, <- ?app_assoc; reflexivity.
Qed.

Lemma iteration_next_frame (s : capture_state) (t : tick) :
  next_frame (fst (fst (iteration s t)))
  = pace (next_frame s) (now t) (delay (disp s)).
Proof.
  destruct (pull t) as [p|] eqn:E.
  - now rewrite (iteration_pulled s t p E).
  - now rewrite (iteration_refused s t E).
Qed.

Lemma iteration_delay (s : capture_state) (t : tick) :
  delay (disp (fst (fst (iteration s t)))) = delay (disp s).
Proof.
  destruct (pull t) as [p|] eqn:E.
  - rewrite (iteration_pulled s t p E). apply read_frame_delay.
  - now rewrite (iteration_refused s t E).
Qed.

Lemma loop_delay (ticks : list tick) (s : capture_state) :
  delay (disp (fst (fst (loop s ticks)))) = delay (disp s).
Proof.
  revert s. induction ticks as [|t ticks IH]; intros s; [reflexivity|].
  cbn [loop].
  pose proof (iteration_delay s t) as Hd.
  destruct (iteration s t) as [[s1 calls] [e|]]; cbn [fst] in *.
  - exact Hd.
  - specialize (IH s1).
    destruct (loop s1 ticks) as [[s2 later] returned]; cbn [fst] in *.
    congruence.
Qed.

(** The loop over [pre ++ rest] runs [rest] from where [pre] leaves it
    running. *)
Lemma loop_app (pre rest : list tick) (s s1 : capture_state)
    (calls : list call) :
  loop s pre = (s1, calls, None) ->
  loop s (pre ++ rest)%list
  = let '(s2, later, returned) := loop s1 rest in
    (s2, (calls ++ later)%list, returned).
Proof.
  revert s calls. induction pre as [|t pre IH]; intros s calls H.
  - cbn in H. injection H as <- <-. cbn [app].
    destruct (loop s rest) as [[s2 later] returned]. reflexivity.
  - cbn [loop app] in *.
    destruct (iteration s t) as [[s' calls'] [e|]]; [discriminate|].
    destruct (loop s' pre) as [[s'' later'] returned'] eqn:E.
    injection H as -> <- ->.
    rewrite (IH _ _ E).
    destruct (loop s1 rest) as [[s2 later] returned].
    now rewrite app_assoc.
Qed.

(** C3: in every iteration the running loop reaches, the next scheduled
    tick is advanced by the delay and, if that is still before the
    iteration's [now], set to [now + delay]; so after the pacing step the
    next tick is never in the past of [now]. *)
Theorem capture_resynchronises (d : picamera_display_t) (r : runtime_t)
    (imgs : nat -> img_t) (start : Z) (pre : list tick) (t : tick)
    (s : capture_state) (calls : list call) :
  0 <= delay d ->
  capture d r imgs start pre = (s, calls, None) ->
  next_frame (fst (fst (iteration s t)))
  = (if next_frame s + delay d <? now t
     then now t + delay d
     else next_frame s + delay d)
  /\ now t <= next_frame (fst (fst (iteration s t))).
Proof.
  intros Hdelay Hrun.
  assert (Hd : delay (disp s) = delay d).
  { pose proof (loop_delay pre (mk_state d r imgs start)) as H.
    unfold capture in Hrun. rewrite Hrun in H. exact H. }
  rewrite iteration_next_frame, Hd. unfold pace.
  split; [reflexivity|].
  destruct (Z.ltb_spec (next_frame s + delay d) (now t)); lia.
Qed.

Lemma capture_resynchronises_witness :
  now (mk_tick 100000000 (Some 0%nat) io_frame true)
  <= next_frame
       (fst (fst (iteration (mk_state running_display runtime0 pool 0)
                    (mk_tick 100000000 (Some 0%nat) io_frame true)))).
Proof.
  apply (capture_resynchronises running_display runtime0 pool 0 []
           (mk_tick 100000000 (Some 0%nat) io_frame true)
           (mk_state running_display runtime0 pool 0) []).
  - vm_compute; congruence.
  - reflexivity.
Defined.

Lemma loop_timeouts (ticks : list tick) (s : capture_state) :
  (forall t, In t ticks ->
     exists p, pull t = Some p /\ push t = true
       /\ forall r img,
            fill_status (read_frame (io t) (disp s) r img) = timeout) ->
  exists s' calls,
    loop s ticks = (s', calls, None)
    /\ pushes calls
       = flat_map (fun t => match pull t with
                            | Some p => [(p, false)]
                            | None => []
                            end) ticks
    /\ disp s' = disp s /\ rt s' = rt s
    /\ forall q, images s' q = images s q.
Proof.
  revert s. induction ticks as [|t ticks IH]; intros s Hall.
  - exists s, []. repeat split.
  - destruct (Hall t (or_introl eq_refl)) as (p & Hpull & Hpush & Hto).
    pose proof (Hto (rt s) (images s p)) as Hst.
    destruct (read_frame_timeout_unchanged _ _ _ _ Hst) as (Hd & Hr & Hi).
    cbn [loop flat_map].
    rewrite (iteration_pulled s t p Hpull). cbv zeta.
    rewrite Hst, Hpush, Hd, Hr, Hi, Hpull.
    destruct (IH (mk_state (disp s) (rt s)
                    (store (images s) p (images s p))
                    (pace (next_frame s) (now t) (delay (disp s)))))
      as (s' & later & Hloop & Hpushes & Hd' & Hr' & Hi').
    { intros t' Hin. apply Hall. now right. }
    rewrite Hloop. eexists. eexists. split; [reflexivity|].
    cbn [disp rt images] in *.
    repeat split; try assumption.
    + rewrite !pushes_app, wait_pushes, read_frame_pushes, Hpushes.
      reflexivity.
    + intros q. rewrite Hi'. unfold store.
      destruct (Nat.eqb_spec q p); [subst|]; reflexivity.
Qed.

(** C5: from any iteration the running loop reaches, on ticks where the
    consumer hands out a buffer and accepts the push, and the fill step
    answers [timeout], the loop pushes the buffer it pulled with
    [is_new = false] on each tick, pushes nothing else, leaves display,
    allocator and every image as they were, and is still running after
    them, however many they are. *)
Theorem capture_timeout_repeats (d : picamera_display_t) (r : runtime_t)
    (imgs : nat -> img_t) (start : Z) (pre ticks : list tick)
    (s : capture_state) (calls : list call) :
  capture d r imgs start pre = (s, calls, None) ->
  (forall t, In t ticks ->
     exists p, pull t = Some p /\ push t = true
       /\ fill_status (read_frame (io t) (disp s) (rt s) (images s p))
          = timeout) ->
  exists s' later,
    capture d r imgs start (pre ++ ticks) = (s', (calls ++ later)%list, None)
    /\ pushes later
       = flat_map (fun t => match pull t with
                            | Some p => [(p, false)]
                            | None => []
                            end) ticks
    /\ disp s' = disp s /\ rt s' = rt s
    /\ forall q, images s' q = images s q.
Proof.
  intros Hrun Hall. unfold capture in *.
  destruct (loop_timeouts ticks s) as (s' & later & Hloop & Hrest).
  { intros t Hin. destruct (Hall t Hin) as (p & Hpull & Hpush & Hst).
    exists p. repeat split; try assumption.
    intros r' img'. exact (read_frame_timeout_any_buffer _ _ _ _ _ _ Hst). }
  exists s', later. split; [|exact Hrest].
  rewrite (loop_app _ _ _ _ _ Hrun), Hloop. reflexivity.
Qed.

Lemma capture_timeout_repeats_witness :
  exists s' later,
    capture running_display runtime0 pool 0
      ([] ++ [mk_tick 1 (Some 0%nat) io_again true;
              mk_tick 40000000 (Some 0%nat) io_foreign true;
              mk_tick 80000000 (Some 0%nat) io_again true])
    = (s', ([] ++ later)%list, None)
    /\ pushes later = [(0%nat, false); (0%nat, false); (0%nat, false)].
Proof.
  destruct (capture_timeout_repeats running_display runtime0 pool 0 []
              [mk_tick 1 (Some 0%nat) io_again true;
               mk_tick 40000000 (Some 0%nat) io_foreign true;
               mk_tick 80000000 (Some 0%nat) io_again true]
              (mk_state running_display runtime0 pool 0) [])
    as (s' & later & Hrun & Hpushes & _).
  - reflexivity.
  - intros t [<-|[<-|[<-|[]]]]; exists 0%nat;
      repeat split; vm_compute; reflexivity.
  - exists s', later. split; [exact Hrun | exact Hpushes].
Defined.

(** C6: when the loop reaches an iteration in which the fill step answers
    [ok] or [timeout] and the consumer declines the push, [capture]
    returns [ok], whatever would have followed; the declined push is the
    last one, flagged new exactly when the fill answered [ok]. *)
Theorem capture_push_declined (d : picamera_display_t) (r : runtime_t)
    (imgs : nat -> img_t) (start : Z) (pre rest : list tick) (t : tick)
    (s : capture_state) (calls : list call) (p : nat) :
  capture d r imgs start pre = (s, calls, None) ->
  pull t = Some p ->
  push t = false ->
  fill_status (read_frame (io t) (disp s) (rt s) (images s p)) = ok
  \/ fill_status (read_frame (io t) (disp s) (rt s) (images s p)) = timeout ->
  snd (capture d r imgs start (pre ++ t :: rest)) = Some ok
  /\ pushes (snd (fst (capture d r imgs start (pre ++ t :: rest))))
     = (pushes calls
        ++ [(p, capture_e_eqb
                  (fill_status (read_frame (io t) (disp s) (rt s) (images s p)))
                  ok)])%list.
Proof.
  intros Hrun Hpull Hpush Hst. unfold capture in *.
  rewrite (loop_app _ _ _ _ _ Hrun). cbn [loop].
  rewrite (iteration_pulled s t p Hpull). cbv zeta. rewrite Hpush.
  destruct Hst as [Hst|Hst]; rewrite Hst; cbn [fst snd capture_e_eqb];
    (split; [reflexivity|]);
    rewrite !pushes_app, wait_pushes, read_frame_pushes; reflexivity.
Qed.

Lemma capture_push_declined_witness :
  snd (capture running_display runtime0 pool 0
         ([mk_tick 1 (Some 0%nat) io_frame true]
          ++ mk_tick 40000000 (Some 1%nat) io_frame false
             :: [mk_tick 80000000 (Some 0%nat) io_frame true]))
  = Some ok.
Proof.
  apply (capture_push_declined running_display runtime0 pool 0
           [mk_tick 1 (Some 0%nat) io_frame true]
           [mk_tick 80000000 (Some 0%nat) io_frame true]
           (mk_tick 40000000 (Some 1%nat) io_frame false)
           (fst (fst (capture running_display runtime0 pool 0
                        [mk_tick 1 (Some 0%nat) io_frame true])))
           (snd (fst (capture running_display runtime0 pool 0
                        [mk_tick 1 (Some 0%nat) io_frame true])))
           1%nat).
  - vm_compute; reflexivity.
  - reflexivity.
  - reflexivity.
  - left. vm_compute; reflexivity.
Defined.

(** C7: when the loop reaches an iteration in which the consumer refuses
    to hand out a buffer, [capture] returns [interrupted] at once: after
    the pacing step the iteration only calls [pull_free_image_cb], and
    display, allocator and images are untouched. *)
Theorem capture_pull_refused (d : picamera_display_t) (r : runtime_t)
    (imgs : nat -> img_t) (start : Z) (pre rest : list tick) (t : tick)
    (s : capture_state) (calls : list call) :
  capture d r imgs start pre = (s, calls, None) ->
  pull t = None ->
  capture d r imgs start (pre ++ t :: rest)
  = (mk_state (disp s) (rt s) (images s)
       (pace (next_frame s) (now t) (delay (disp s))),
     (calls ++ wait (next_frame s) (now t) ++ [pull_free_image_cb])%list,
     Some interrupted).
Proof.
  intros Hrun Hpull. unfold capture in *.
  rewrite (loop_app _ _ _ _ _ Hrun). cbn [loop].
  rewrite (iteration_refused s t Hpull). reflexivity.
Qed.

Lemma capture_pull_refused_witness :
  snd (capture running_display runtime0 pool 0
         ([] ++ mk_tick 1 None io_frame true
             :: [mk_tick 40000000 (Some 0%nat) io_frame true]))
  = Some interrupted.
Proof.
  rewrite (capture_pull_refused running_display runtime0 pool 0 []
             [mk_tick 40000000 (Some 0%nat) io_frame true]
             (mk_tick 1 None io_frame true)
             (mk_state running_display runtime0 pool 0) []
             eq_refl eq_refl).
  reflexivity.
Defined.

Lemma read_frame_foreign_packet_witness :
  read_frame io_foreign running_display runtime0 (pool 0)
  = (timeout, running_display, runtime0, pool 0,
     [av_read_frame; av_packet_unref]).
Proof.
  apply (read_frame_foreign_packet io_foreign running_display runtime0 (pool 0)).
  - vm_compute; congruence.
  - vm_compute; congruence.
Defined.

(** ** Frame buffers *)

(** C4, as stated, fails: a buffer that arrives without pixel data gets an
    allocation although its stored width, height and row pitch are those
    of the decoded frame; the stored width is not compared, so a buffer of
    [alloc_img], whose width is still 0, keeps its allocation when its row
    pitch and height fit the frame; and the row pitch is a 32-bit product,
    which for a frame 1073741825 pixels wide is 4, not four times the
    width. *)
Lemma read_frame_empty_buffer_allocates :
  (fill_status (read_frame io_frame running_display runtime0 empty_image) = ok
   /\ width empty_image = frame_width (received io_frame)
   /\ height empty_image = frame_height (received io_frame)
   /\ row_pitch empty_image = frame_width (received io_frame) * 4
   /\ data (fill_image (read_frame io_frame running_display runtime0 empty_image))
      <> data empty_image
   /\ heap (fill_runtime (read_frame io_frame running_display runtime0 empty_image))
      <> heap runtime0)
  /\ (fill_status (read_frame io_frame running_display runtime0 (pool 0)) = ok
      /\ width (pool 0) <> frame_width (received io_frame)
      /\ data (fill_image (read_frame io_frame running_display runtime0 (pool 0)))
         = data (pool 0))
  /\ (fill_status (read_frame io_wide running_display runtime0 empty_image) = ok
      /\ row_pitch (fill_image (read_frame io_wide running_display runtime0
                                  empty_image)) = 4
      /\ row_pitch (fill_image (read_frame io_wide running_display runtime0
                                  empty_image))
         <> width (fill_image (read_frame io_wide running_display runtime0
                                 empty_image)) * 4).
Proof.
  repeat split; vm_compute; congruence.
Qed.

Lemma int_wrap_small (z : Z) :
  - 2 ^ 31 <= z < 2 ^ 31 -> int_wrap z = z.
Proof.
  intros H. unfold int_wrap.
  change (2 ^ 31) with 2147483648 in *. change (2 ^ 32) with 4294967296.
  rewrite Z.mod_small by lia. lia.
Qed.

Lemma array_bytes_small (row height : Z) :
  0 <= row < 2 ^ 31 -> 0 <= height < 2 ^ 31 ->
  array_bytes row height = row * height.
Proof.
  intros Hr Hh. unfold array_bytes, to_size_t.
  change (2 ^ 31) with 2147483648 in *.
  change (2 ^ 64) with 18446744073709551616.
  rewrite (Z.mod_small row), (Z.mod_small height) by lia.
  apply Z.mod_small. nia.
Qed.

(** What a successful fill leaves in the buffer and in the allocator. *)
Lemma read_frame_ok_buffer (io : frame_io) (d : picamera_display_t)
    (rt : runtime_t) (img : img_t) :
  let frame := received io in
  let filled := read_frame io d rt img in
  fill_status filled = ok ->
  row_pitch (fill_image filled) = int_wrap (frame_width frame * 4)
  /\ pixel_pitch (fill_image filled) = 4
  /\ width (fill_image filled) = frame_width frame
  /\ height (fill_image filled) = frame_height frame
  /\ (if is_null (data img)
         || negb (row_pitch img =? int_wrap (frame_width frame * 4))
         || negb (height img =? frame_height frame)
      then data (fill_image filled)
           = Some (mk_block (next_block (heap rt))
                     (array_bytes (int_wrap (frame_width frame * 4))
                        (frame_height frame)))
           /\ heap (fill_runtime filled)
              = mk_heap (S (next_block (heap rt)))
                  match data img with
                  | Some b => blk_id b :: freed (heap rt)
                  | None => freed (heap rt)
                  end
                  (grants (heap rt))
      else data (fill_image filled) = data img
           /\ heap (fill_runtime filled) = heap rt).
Proof.
  intros frame filled. subst frame filled.
  fill_cases; cbn; try discriminate; intros _;
    try solve
      [ match goal with
        | H : new_array _ _ = Some _ |- _ =>
            unfold new_array in H;
            destruct (_ && _) in H; [|discriminate];
            injection H as <- <-
        end;
        repeat split; destruct (data img); reflexivity ];
    repeat split;
    match goal with
    | H : _ || _ || _ = false |- _ =>
        apply orb_false_elim in H; destruct H as [H _];
        apply orb_false_elim in H; destruct H as [_ H];
        apply negb_false_iff, Z.eqb_eq in H; exact H
    end.
Qed.

(** C4, amended: after every successful fill the buffer has
    [pixel_pitch = 4], the frame's width and height, and as row pitch the
    32-bit product [width * 4], which is [width * 4] whenever that is an
    [int].  Its allocation is replaced, by a new one of
    [size_t(row_pitch) * height] bytes (that is [width * 4 * height] for a
    frame whose width, four times its width and height are non-negative
    [int]s) with the old one (if any) freed once, exactly when the buffer
    arrives without pixel data or its stored row pitch or height differ
    from the frame's 32-bit [width * 4] or height; otherwise allocation
    and allocator are untouched.  A second successful fill of the buffer
    with a frame of the same width and height keeps the allocation of the
    first. *)
Theorem read_frame_buffer_reuse (io io2 : frame_io) (d : picamera_display_t)
    (rt : runtime_t) (img : img_t) :
  let frame := received io in
  let filled := read_frame io d rt img in
  let again :=
    read_frame io2 (fill_display filled) (fill_runtime filled)
      (fill_image filled) in
  fill_status filled = ok ->
  (row_pitch (fill_image filled) = int_wrap (width (fill_image filled) * 4)
   /\ (- 2 ^ 31 <= width (fill_image filled) * 4 < 2 ^ 31 ->
       row_pitch (fill_image filled) = width (fill_image filled) * 4)
   /\ pixel_pitch (fill_image filled) = 4
   /\ width (fill_image filled) = frame_width frame
   /\ height (fill_image filled) = frame_height frame)
  /\ (if is_null (data img)
         || negb (row_pitch img =? int_wrap (frame_width frame * 4))
         || negb (height img =? frame_height frame)
      then data (fill_image filled)
           = Some (mk_block (next_block (heap rt))
                     (array_bytes (int_wrap (frame_width frame * 4))
                        (frame_height frame)))
           /\ heap (fill_runtime filled)
              = mk_heap (S (next_block (heap rt)))
                  match data img with
                  | Some b => blk_id b :: freed (heap rt)
                  | None => freed (heap rt)
                  end
                  (grants (heap rt))
      else data (fill_image filled) = data img
           /\ heap (fill_runtime filled) = heap rt)
  /\ (0 <= frame_width frame -> frame_width frame * 4 < 2 ^ 31 ->
      0 <= frame_height frame < 2 ^ 31 ->
      array_bytes (int_wrap (frame_width frame * 4)) (frame_height frame)
      = frame_width frame * 4 * frame_height frame)
  /\ (fill_status again = ok ->
      frame_width (received io2) = frame_width frame ->
      frame_height (received io2) = frame_height frame ->
      data (fill_image again) = data (fill_image filled)
      /\ heap (fill_runtime again) = heap (fill_runtime filled)).
Proof.
  intros frame filled again Hok.
  destruct (read_frame_ok_buffer io d rt img Hok)
    as (Hpitch & Hpixel & Hwidth & Hheight & Halloc).
  fold frame filled in Hpitch, Hpixel, Hwidth, Hheight, Halloc.
  split; [|split; [|split]].
  - rewrite Hwidth. repeat split; try assumption.
    intros Hrange. rewrite Hpitch. now apply int_wrap_small.
  - exact Halloc.
  - intros Hw0 Hw Hh.
    assert (Hsmall : - 2 ^ 31 <= frame_width frame * 4 < 2 ^ 31)
      by (change (2 ^ 31) with 2147483648 in *; lia).
    rewrite (int_wrap_small _ Hsmall).
    apply array_bytes_small; [|exact Hh].
    change (2 ^ 31) with 2147483648 in *; lia.
  - intros Hok2 Hw Hh.
    destruct (read_frame_ok_buffer io2 _ _ _ Hok2) as (_ & _ & _ & _ & Hsame).
    fold again in Hsame.
    assert (Hdata : is_null (data (fill_image filled)) = false).
    { destruct (is_null (data img)
                || negb (row_pitch img =? int_wrap (frame_width frame * 4))
                || negb (height img =? frame_height frame)) eqn:E.
      - destruct Halloc as [-> _]. reflexivity.
      - destruct Halloc as [-> _].
        apply orb_false_elim in E. destruct E as [E _].
        apply orb_false_elim in E. destruct E as [E _]. exact E. }
    rewrite Hdata, Hw, Hh, Hpitch, Hheight, !Z.eqb_refl in Hsame.
    exact Hsame.
Qed.

Lemma read_frame_buffer_reuse_witness :
  data (fill_image (read_frame io_frame running_display runtime0 (pool 0)))
  = data (pool 0)
  /\ heap (fill_runtime (read_frame io_frame running_display runtime0 (pool 0)))
     = heap runtime0.
Proof.
  assert (Hok : fill_status (read_frame io_frame running_display runtime0 (pool 0))
                = ok) by (vm_compute; reflexivity).
  pose proof (read_frame_buffer_reuse io_frame io_frame running_display
                runtime0 (pool 0) Hok) as (_ & Halloc & _).
  exact Halloc.
Defined.

(** ** Conversion Session *)

Lemma sws_same_config_refl (c : SwsContext) :
  sws_same_config c (sws_srcW c) (sws_srcH c) (sws_srcFormat c) (sws_dstW c)
    (sws_dstH c) (sws_dstFormat c) (sws_flags c) = true.
Proof.
  unfold sws_same_config. now rewrite !Z.eqb_refl.
Qed.

(** A context that [sws_getCachedContext] returns has the configuration
    that was asked for. *)
Lemma sws_getCachedContext_config (can_build : bool) (built : nat)
    (context : option SwsContext)
    (srcW srcH srcFormat dstW dstH dstFormat flags : Z) (c : SwsContext) :
  fst (sws_getCachedContext can_build built context
         srcW srcH srcFormat dstW dstH dstFormat flags) = Some c ->
  sws_same_config c srcW srcH srcFormat dstW dstH dstFormat flags = true.
Proof.
  unfold sws_getCachedContext.
  destruct context as [c0|].
  - destruct (sws_same_config c0 _ _ _ _ _ _ _) eqn:E; cbn [fst].
    + intros [= <-]. exact E.
    + destruct can_build; cbn [fst]; [|discriminate].
      intros [= <-]. apply sws_same_config_refl.
  - destruct can_build; cbn [fst]; [|discriminate].
    intros [= <-]. apply sws_same_config_refl.
Qed.

(** C8: after a [configure] that left a converter, a second [configure]
    with the same source width, height and format and the same
    destination width and height succeeds, holds the same converter, and
    builds none, whether or not the library could build one. *)
Theorem configure_idempotent (can_build can_build' : bool) (built : nat)
    (s : scale_context_t) (src_w src_h src_fmt dst_w dst_h : Z) :
  let first := configure can_build built s src_w src_h src_fmt dst_w dst_h in
  fst (fst first) = true ->
  configure can_build' (snd first) (snd (fst first))
    src_w src_h src_fmt dst_w dst_h
  = (true, snd (fst first), snd first).
Proof.
  intros first. subst first. unfold configure.
  pose proof (sws_getCachedContext_config can_build built (sws_ctx s)
                src_w src_h src_fmt dst_w dst_h AV_PIX_FMT_BGRA SWS_BILINEAR)
    as Hconfig.
  destruct (sws_getCachedContext can_build built (sws_ctx s) _ _ _ _ _ _ _)
    as [[c|] built1]; cbn [fst snd sws_ctx]; [|discriminate].
  intros _. specialize (Hconfig c eq_refl).
  unfold sws_getCachedContext. now rewrite Hconfig.
Qed.

Lemma configure_idempotent_witness :
  configure false 1 (mk_scale_context
                       (Some (mk_sws 0 1280 720 0 1280 720 AV_PIX_FMT_BGRA
                                SWS_BILINEAR)))
    1280 720 0 1280 720
  = (true,
     mk_scale_context
       (Some (mk_sws 0 1280 720 0 1280 720 AV_PIX_FMT_BGRA SWS_BILINEAR)),
     1%nat).
Proof.
  apply (configure_idempotent true false 0 (mk_scale_context None)
           1280 720 0 1280 720).
  reflexivity.
Defined.

(** A change of the source geometry replaces the converter. *)
Lemma configure_rebuilds_on_change :
  let first := configure true 0 (mk_scale_context None) 1280 720 0 1280 720 in
  let second :=
    configure true (snd first) (snd (fst first)) 640 480 0 640 480 in
  sws_ctx (snd (fst second)) <> sws_ctx (snd (fst first))
  /\ snd second = S (snd first).
Proof.
  split; vm_compute; congruence.
Qed.

(** ** Device enumeration *)

Lemma display_names_fold (fs : filesystem) (idxs : list Z)
    (acc : list string) :
  fold_left
    (fun devices idx =>
       match devices with
       | None => None
       | Some devices =>
           let path := device_path idx in
           match fs path with
           | None => None
           | Some true => Some (devices ++ [path])%list
           | Some false => Some devices
           end
       end)
    idxs (Some acc)
  = if forallb (fun path => match fs path with
                            | Some _ => true
                            | None => false
                            end) (map device_path idxs)
    then Some (acc ++ filter (fun path => match fs path with
                                          | Some true => true
                                          | _ => false
                                          end) (map device_path idxs))%list
    else None.
Proof.
  revert acc. induction idxs as [|idx idxs IH]; intros acc;
    cbn [fold_left map filter forallb].
  - now rewrite app_nil_r.
  - destruct (fs (device_path idx)) as [[|]|]; cbn [andb].
    + rewrite IH. destruct (forallb _ _); [|reflexivity].
      now rewrite <- app_assoc.
    + apply IH.
    + clear IH. induction idxs as [|idx' idxs IH]; [reflexivity | exact IH].
Qed.

(** What [display_names] gives, in terms of the eight paths it probes. *)
Lemma display_names_filter (fs : filesystem) :
  display_names fs
  = if forallb (fun path => match fs path with
                            | Some _ => true
                            | None => false
                            end)
         ["/dev/video0"; "/dev/video1"; "/dev/video2"; "/dev/video3";
          "/dev/video4"; "/dev/video5"; "/dev/video6"; "/dev/video7"]
    then
      let devices :=
        filter (fun path => match fs path with
                            | Some true => true
                            | _ => false
                            end)
          ["/dev/video0"; "/dev/video1"; "/dev/video2"; "/dev/video3";
           "/dev/video4"; "/dev/video5"; "/dev/video6"; "/dev/video7"] in
      Some match devices with
           | [] => [DEFAULT_DEVICE]
           | _ => devices
           end
    else None.
Proof.
  unfold display_names. rewrite display_names_fold.
  change (map device_path [0; 1; 2; 3; 4; 5; 6; 7])
    with ["/dev/video0"; "/dev/video1"; "/dev/video2"; "/dev/video3";
          "/dev/video4"; "/dev/video5"; "/dev/video6"; "/dev/video7"].
  destruct (forallb _ _); [|reflexivity].
  cbn [app]. cbv zeta. destruct (filter _ _); reflexivity.
Qed.

(** C9, as stated, fails: on a file system where /dev/video3 cannot be
    examined, [std::filesystem::exists] throws and [display_names] returns
    no list at all. *)
Lemma display_names_throws :
  unreadable_video3 "/dev/video3" = None
  /\ display_names unreadable_video3 = None
  /\ ~ (exists names, display_names unreadable_video3 = Some names
                      /\ names <> []).
Proof.
  split; [reflexivity|]. split; [reflexivity|].
  intros (names & H & _). vm_compute in H. discriminate H.
Qed.

(** C9, amended: [display_names] returns a list exactly when
    [std::filesystem::exists] answers for each of /dev/video0 ...
    /dev/video7; otherwise the exception leaves it.  A list it returns is
    not empty, contains every one of these eight paths that exists, and
    is the default device /dev/video0 alone when none of them exists. *)
Theorem display_names_nonempty (fs : filesystem) :
  let paths :=
    ["/dev/video0"; "/dev/video1"; "/dev/video2"; "/dev/video3";
     "/dev/video4"; "/dev/video5"; "/dev/video6"; "/dev/video7"] in
  ((exists names, display_names fs = Some names) <->
   forall path, In path paths -> fs path <> None)
  /\ (forall names, display_names fs = Some names ->
      names <> []
      /\ (forall path, In path paths -> fs path = Some true -> In path names)
      /\ ((forall path, In path paths -> fs path = Some false) ->
          names = ["/dev/video0"])).
Proof.
  intros paths. subst paths. rewrite display_names_filter. cbv zeta.
  set (paths := ["/dev/video0"; "/dev/video1"; "/dev/video2"; "/dev/video3";
                 "/dev/video4"; "/dev/video5"; "/dev/video6"; "/dev/video7"]).
  set (exists_ := fun path => match fs path with
                              | Some true => true
                              | _ => false
                              end).
  assert (Hlisted : forall path, In path (filter exists_ paths) <->
                                 In path paths /\ fs path = Some true).
  { intros path. rewrite filter_In. unfold exists_.
    destruct (fs path) as [[|]|]; intuition congruence. }
  destruct (forallb _ paths) eqn:Hall.
  - rewrite forallb_forall in Hall. split.
    + split; [|intros _; eexists; reflexivity].
      intros _ path Hin. specialize (Hall path Hin).
      destruct (fs path); [discriminate | discriminate Hall].
    + intros names Hrun.
      destruct (filter exists_ paths) as [|first rest] eqn:E;
        injection Hrun as <-.
      * split; [discriminate|]. split; [|reflexivity].
        intros path Hin Hyes.
        destruct (proj2 (Hlisted path) (conj Hin Hyes)).
      * split; [discriminate|]. split.
        -- intros path Hin Hyes. exact (proj2 (Hlisted path) (conj Hin Hyes)).
        -- intros Hnone. exfalso.
           destruct (proj1 (Hlisted first) (or_introl eq_refl)) as [Hin Hyes].
           rewrite (Hnone first Hin) in Hyes. discriminate Hyes.
  - split; [|discriminate].
    split; [intros (names & H); discriminate H|].
    intros Hans. exfalso.
    assert (Htrue : forallb (fun path => match fs path with
                                         | Some _ => true
                                         | None => false
                                         end) paths = true).
    { apply forallb_forall. intros path Hin. specialize (Hans path Hin).
      destruct (fs path); [reflexivity | congruence]. }
    congruence.
Qed.

Lemma display_names_nonempty_witness :
  In "/dev/video2" ["/dev/video2"]
  /\ display_names only_video2 = Some ["/dev/video2"].
Proof.
  assert (Hrun : display_names only_video2 = Some ["/dev/video2"])
    by (vm_compute; reflexivity).
  split; [|exact Hrun].
  refine (proj1 (proj2 (proj2 (display_names_nonempty only_video2)
                          ["/dev/video2"] Hrun))
            "/dev/video2" _ _).
  - cbn. tauto.
  - reflexivity.
Defined.

(** The entries of [display_names] keep the numeric order. *)
Lemma display_names_sample :
  display_names (fun path => Some (String.eqb path "/dev/video5"
                                   || String.eqb path "/dev/video1"))
  = Some ["/dev/video1"; "/dev/video5"].
Proof.
  reflexivity.
Qed.

(** * Further properties of the backend *)

(** ** Device Session: [close], [open], [stream] *)

(** X1: [close] does nothing to a session without a handle, brings a
    session with a handle back to the state of a new one, can be repeated,
    and leaves no negotiated stream. *)
Theorem close_releases (f : format_context_t) :
  (ctx f = None -> close f = f)
  /\ (ctx f <> None -> close f = format_context_init)
  /\ close (close f) = close f
  /\ stream (close f) = None.
Proof.
  repeat split.
  - unfold close. now intros ->.
  - unfold close. destruct (ctx f); [reflexivity | congruence].
  - apply close_idempotent.
  - unfold stream. now rewrite close_closed.
Qed.

Lemma close_releases_witness :
  close (mk_format_context (Some camera_context) 0) = format_context_init.
Proof.
  assert (H : ctx (mk_format_context (Some camera_context) 0) <> None)
    by (cbn; discriminate).
  exact (proj1 (proj2 (close_releases
                         (mk_format_context (Some camera_context) 0))) H).
Defined.

(** X2: whatever the library answers, [open] on a new session followed by
    [close] gives the new session back: no outcome of [open] holds a handle
    that [close] does not release. *)
Theorem open_close_round_trip (fl : avformat_t) (device : string)
    (cfg : config_t) :
  close (snd (open fl format_context_init device cfg)) = format_context_init.
Proof.
  unfold open.
  destruct (av_find_input_format fl "v4l2"); cbn [negb]; [|reflexivity].
  destruct (avformat_open_input fl device (open_options cfg))
    as [result opened].
  destruct (result <? 0); [reflexivity|].
  destruct (avformat_find_stream_info fl opened <? 0); [reflexivity|].
  cbn [stream_index ctx].
  destruct (av_find_best_stream fl opened <? 0); reflexivity.
Qed.

(** X3: [open] on a new session returns true exactly when the input
    format is found and the device open, the stream probe and the stream
    search all answer with a value that is not negative; the session then
    holds the opened context, its index is the stream found, and [stream]
    is that stream of the context. *)
Theorem open_negotiates (fl : avformat_t) (device : string) (cfg : config_t) :
  let answer := avformat_open_input fl device (open_options cfg) in
  let r := open fl format_context_init device cfg in
  (fst r = true <->
   av_find_input_format fl "v4l2" = true
   /\ 0 <= fst answer
   /\ 0 <= avformat_find_stream_info fl (snd answer)
   /\ 0 <= av_find_best_stream fl (snd answer))
  /\ (fst r = true ->
      ctx (snd r) = Some (snd answer)
      /\ index (snd r) = av_find_best_stream fl (snd answer)
      /\ stream (snd r)
         = nth_error (streams (snd answer))
             (Z.to_nat (av_find_best_stream fl (snd answer)))).
Proof.
  intros answer r. split; [apply open_success|].
  subst answer r. unfold open.
  destruct (av_find_input_format fl "v4l2"); cbn [negb fst snd];
    [|discriminate].
  destruct (avformat_open_input fl device (open_options cfg))
    as [result opened]. cbn [fst snd].
  destruct (result <? 0); cbn [fst snd]; [discriminate|].
  destruct (avformat_find_stream_info fl opened <? 0); cbn [fst snd];
    [discriminate|].
  cbn [stream_index ctx].
  destruct (av_find_best_stream fl opened <? 0) eqn:E; cbn [fst snd];
    [discriminate|].
  intros _. unfold index, stream. cbn [ctx stream_index]. now rewrite E.
Qed.

Lemma open_negotiates_witness :
  stream (snd (open camera format_context_init DEFAULT_DEVICE hd_config))
  = Some (mk_stream (mk_codecpar 13 1280 720)).
Proof.
  apply (open_negotiates camera DEFAULT_DEVICE hd_config).
  reflexivity.
Defined.

(** X4: the hints [open] passes to the device: a video size entry
    "WxH" exactly when width and height are both positive, a frame rate
    entry exactly when the frame rate is positive, and nothing else. *)
Theorem open_options_hints (cfg : config_t) (key value : string) :
  In (key, value) (open_options cfg) <->
  (key = "video_size"
   /\ value = to_string (cfg_width cfg) ++ "x" ++ to_string (cfg_height cfg)
   /\ 0 < cfg_width cfg /\ 0 < cfg_height cfg)
  \/ (key = "framerate" /\ value = to_string (cfg_framerate cfg)
      /\ 0 < cfg_framerate cfg).
Proof.
  unfold open_options, av_dict_set.
  destruct (Z.ltb_spec 0 (cfg_width cfg));
    destruct (Z.ltb_spec 0 (cfg_height cfg));
    destruct (Z.ltb_spec 0 (cfg_framerate cfg)); cbn.
  all: split;
    [ intros Hin;
      repeat match goal with
        | Hor : _ \/ _ |- _ => destruct Hor as [Hor|Hor]
        | Heq : (_, _) = (_, _) |- _ => injection Heq as <- <-
        | Hf : False |- _ => destruct Hf
        end; try (left; now repeat split); try (right; now repeat split)
    | intros [(-> & -> & ? & ?)|(-> & -> & ?)]; try lia; auto ].
Qed.

(** ** Decode Session: [codec_context_t::open] *)

Lemma codec_open_opened (lib : avcodec_t) (c : codec_context_t)
    (p : AVCodecParameters) :
  fst (codec_open lib c (Some p)) = true ->
  codec_ctx (snd (codec_open lib c (Some p))) = Some (mk_codec (Some p) true).
Proof.
  unfold codec_open.
  destruct (avcodec_find_decoder lib (par_codec_id p)); cbn [negb];
    [|discriminate].
  destruct (avcodec_alloc_context3 lib); cbn [negb]; [|discriminate].
  destruct (avcodec_parameters_to_context lib p <? 0); [discriminate|].
  destruct (avcodec_open2 lib <? 0); [discriminate | reflexivity].
Qed.

(** X5: [codec_context_t::open] returns true exactly when the parameters
    are present, a decoder exists for their codec, the context is
    allocated, and filling and opening it both answer with a value that is
    not negative; the session then holds an opened decoder bound to those
    parameters.  Without parameters or without a decoder the session is
    left as it was. *)
Theorem codec_open_succeeds (lib : avcodec_t) (c : codec_context_t)
    (params : option AVCodecParameters) :
  (fst (codec_open lib c params) = true <->
   exists p, params = Some p
     /\ avcodec_find_decoder lib (par_codec_id p) = true
     /\ avcodec_alloc_context3 lib = true
     /\ 0 <= avcodec_parameters_to_context lib p
     /\ 0 <= avcodec_open2 lib)
  /\ (forall p, params = Some p -> fst (codec_open lib c params) = true ->
      codec_ctx (snd (codec_open lib c params)) = Some (mk_codec (Some p) true))
  /\ (params = None
      \/ (exists p, params = Some p
            /\ avcodec_find_decoder lib (par_codec_id p) = false) ->
      codec_open lib c params = (false, c)).
Proof.
  unfold codec_open. destruct params as [p|].
  - destruct (avcodec_find_decoder lib (par_codec_id p)) eqn:Hdec;
      cbn [negb].
    + destruct (avcodec_alloc_context3 lib) eqn:Halloc; cbn [negb].
      * destruct (Z.ltb_spec (avcodec_parameters_to_context lib p) 0).
        -- repeat split; try discriminate.
           ++ intros (q & [= <-] & _ & _ & ? & _). lia.
           ++ intros [H'|(q & [= <-] & H')]; congruence.
        -- destruct (Z.ltb_spec (avcodec_open2 lib) 0).
           ++ repeat split; try discriminate.
              ** intros (q & [= <-] & _ & _ & _ & ?). lia.
              ** intros [H'|(q & [= <-] & H')]; congruence.
           ++ repeat split.
              ** intros _. exists p. repeat split; assumption.
              ** intros q [= <-] _. reflexivity.
              ** intros [H'|(q & [= <-] & H')]; congruence.
      * repeat split; try discriminate.
        -- intros (q & [= <-] & _ & ? & _). congruence.
        -- intros [H'|(q & [= <-] & H')]; congruence.
    + repeat split; try discriminate.
      intros (q & [= <-] & ? & _). congruence.
  - repeat split; try discriminate.
    intros (q & ? & _). discriminate.
Qed.

Lemma codec_open_succeeds_witness :
  codec_ctx (snd (codec_open decoder (mk_codec_context None)
                    (Some (mk_codecpar 13 1280 720))))
  = Some (mk_codec (Some (mk_codecpar 13 1280 720)) true).
Proof.
  apply (proj1 (proj2 (codec_open_succeeds decoder (mk_codec_context None)
                         (Some (mk_codecpar 13 1280 720))))
           (mk_codecpar 13 1280 720) eq_refl).
  reflexivity.
Defined.

(** ** The display: [init], [create_display] *)

(** What a successful [init] leaves in the display. *)
Lemma init_success (fl : avformat_t) (cl : avcodec_t)
    (d : picamera_display_t) (cfg : config_t) :
  fst (init fl cl d cfg) = true ->
  exists st,
    stream (format (snd (init fl cl d cfg))) = Some st
    /\ format (snd (init fl cl d cfg)) = snd (open fl (format d) (device d) cfg)
    /\ display_width (snd (init fl cl d cfg)) = par_width (codecpar st)
    /\ display_height (snd (init fl cl d cfg)) = par_height (codecpar st)
    /\ env_width (snd (init fl cl d cfg)) = par_width (codecpar st)
    /\ env_height (snd (init fl cl d cfg)) = par_height (codecpar st)
    /\ codec_ctx (codec (snd (init fl cl d cfg)))
       = Some (mk_codec (Some (codecpar st)) true)
    /\ device (snd (init fl cl d cfg)) = device d.
Proof.
  unfold init. cbn [format device set_delay].
  destruct (open fl (format d) (device d) cfg) as [opened f].
  destruct opened; cbn [negb fst snd]; [|discriminate].
  cbn [format set_format].
  destruct (stream f) as [st|] eqn:Hst; cbn [fst]; [|discriminate].
  cbn [codec set_geometry set_format set_delay].
  pose proof (codec_open_opened cl (codec d) (codecpar st)) as Hctx.
  destruct (codec_open cl (codec d) (Some (codecpar st)))
    as [decoding c] eqn:Hc.
  destruct decoding; cbn [negb fst snd]; [|discriminate].
  intros _. exists st. cbn.
  repeat split; try assumption.
  exact (Hctx eq_refl).
Qed.

(** X6: when [init] returns true the device session holds a handle and a
    negotiated stream, the display reports that stream's width and height
    (also as [env_width] and [env_height]) whatever size was asked for,
    the decoder is opened on that stream's parameters, and the device path
    is the one the display was constructed with. *)
Theorem init_negotiated_geometry (fl : avformat_t) (cl : avcodec_t)
    (d : picamera_display_t) (cfg : config_t) :
  fst (init fl cl d cfg) = true ->
  exists st,
    stream (format (snd (init fl cl d cfg))) = Some st
    /\ format (snd (init fl cl d cfg)) = snd (open fl (format d) (device d) cfg)
    /\ display_width (snd (init fl cl d cfg)) = par_width (codecpar st)
    /\ display_height (snd (init fl cl d cfg)) = par_height (codecpar st)
    /\ env_width (snd (init fl cl d cfg)) = par_width (codecpar st)
    /\ env_height (snd (init fl cl d cfg)) = par_height (codecpar st)
    /\ codec_ctx (codec (snd (init fl cl d cfg)))
       = Some (mk_codec (Some (codecpar st)) true)
    /\ device (snd (init fl cl d cfg)) = device d.
Proof.
  exact (init_success fl cl d cfg).
Qed.

Lemma init_negotiated_geometry_witness :
  exists st,
    stream (format (snd (init camera decoder (picamera_display DEFAULT_DEVICE)
                           (mk_config 640 480 30)))) = Some st
    /\ display_width (snd (init camera decoder (picamera_display DEFAULT_DEVICE)
                             (mk_config 640 480 30))) = par_width (codecpar st).
Proof.
  destruct (init_negotiated_geometry camera decoder
              (picamera_display DEFAULT_DEVICE) (mk_config 640 480 30))
    as (st & Hst & _ & Hw & _).
  - vm_compute; reflexivity.
  - exists st. split; assumption.
Defined.

(** X7: the delay [init] leaves lies between 0 and one second for every
    configuration; for a frame rate of at least 1 it is one second divided
    by the frame rate, rounded down; above 10^9 frames per second it is 0. *)
Theorem init_delay_bounds (fl : avformat_t) (cl : avcodec_t)
    (d : picamera_display_t) (cfg : config_t) :
  0 <= delay (snd (init fl cl d cfg)) <= one_second
  /\ (1 <= cfg_framerate cfg ->
      cfg_framerate cfg * delay (snd (init fl cl d cfg)) <= one_second
      /\ one_second < cfg_framerate cfg * (delay (snd (init fl cl d cfg)) + 1))
  /\ (one_second < cfg_framerate cfg -> delay (snd (init fl cl d cfg)) = 0).
Proof.
  rewrite init_delay. unfold one_second.
  split; [|split].
  - rewrite Z.quot_div_nonneg by lia.
    split; [apply Z.div_pos; lia|].
    apply Z.div_le_upper_bound; lia.
  - intros Hrate. replace (Z.max 1 (cfg_framerate cfg)) with (cfg_framerate cfg) by lia.
    rewrite Z.quot_div_nonneg by lia.
    pose proof (Z.mul_div_le 1000000000 (cfg_framerate cfg)).
    pose proof (Z.mul_succ_div_gt 1000000000 (cfg_framerate cfg)).
    lia.
  - intros Hrate. replace (Z.max 1 (cfg_framerate cfg)) with (cfg_framerate cfg) by lia.
    apply Z.quot_small. lia.
Qed.

Lemma init_delay_bounds_witness :
  60 * delay (snd (init camera decoder (picamera_display DEFAULT_DEVICE)
                     (mk_config 1280 720 60))) <= one_second.
Proof.
  apply (init_delay_bounds camera decoder (picamera_display DEFAULT_DEVICE)
           (mk_config 1280 720 60)).
  cbn. lia.
Defined.

(** X8: [create_display] never returns a half-open display: a display it
    returns has an open device handle, a negotiated stream whose width and
    height it reports, an opened decoder, the device path it was given
    (the default one for the empty path), and the delay of [init]. *)
Theorem create_display_ready (fl : avformat_t) (cl : avcodec_t)
    (path : string) (config : config_t) (d : picamera_display_t) :
  create_display fl cl path config = Some d ->
  device d = (if String.eqb path EmptyString then DEFAULT_DEVICE else path)
  /\ ctx (format d) <> None
  /\ 0 <= index (format d)
  /\ (exists st,
        stream (format d) = Some st
        /\ display_width d = par_width (codecpar st)
        /\ display_height d = par_height (codecpar st)
        /\ codec_ctx (codec d) = Some (mk_codec (Some (codecpar st)) true))
  /\ delay d = Z.quot one_second (Z.max 1 (cfg_framerate config)).
Proof.
  unfold create_display.
  set (resolved := if String.eqb path EmptyString then DEFAULT_DEVICE else path).
  pose proof (init_success fl cl (picamera_display resolved) config)
    as Hinit.
  pose proof (init_delay fl cl (picamera_display resolved) config) as Hdelay.
  destruct (init fl cl (picamera_display resolved) config)
    as [initialised display].
  destruct initialised; cbn [negb fst snd] in *; [|discriminate].
  intros [= <-].
  destruct (Hinit eq_refl) as (st & Hst & _ & Hw & Hh & _ & _ & Hc & Hdev).
  destruct (stream_valid_index _ _ Hst) as [Hctx Hidx].
  repeat split; try assumption.
  exists st. repeat split; assumption.
Qed.

Lemma create_display_ready_witness :
  device (snd (init camera decoder (picamera_display DEFAULT_DEVICE) hd_config))
  = DEFAULT_DEVICE.
Proof.
  assert (H : create_display camera decoder EmptyString hd_config
              = Some (snd (init camera decoder (picamera_display DEFAULT_DEVICE)
                             hd_config)))
    by (vm_compute; reflexivity).
  exact (proj1 (create_display_ready camera decoder EmptyString hd_config _ H)).
Defined.

(** X9: [create_display] returns no display when the input format is
    missing, or the device cannot be opened or probed, or carries no video
    stream; and the empty device path stands for the default device. *)
Theorem create_display_unreachable (fl : avformat_t) (cl : avcodec_t)
    (path : string) (config : config_t) :
  let resolved := if String.eqb path EmptyString then DEFAULT_DEVICE else path in
  let answer := avformat_open_input fl resolved (open_options config) in
  (av_find_input_format fl "v4l2" = false
   \/ fst answer < 0
   \/ avformat_find_stream_info fl (snd answer) < 0
   \/ av_find_best_stream fl (snd answer) < 0 ->
   create_display fl cl path config = None)
  /\ create_display fl cl EmptyString config
     = create_display fl cl DEFAULT_DEVICE config.
Proof.
  intros resolved answer. split; [|reflexivity].
  intros Hfail. unfold create_display, init. fold resolved.
  cbn [format device set_delay picamera_display].
  pose proof (open_success fl resolved config) as Hiff. cbv zeta in Hiff.
  fold answer in Hiff.
  destruct (open fl format_context_init resolved config) as [opened f].
  cbn [fst] in Hiff.
  destruct opened; [|reflexivity].
  destruct (proj1 Hiff eq_refl) as (H1 & H2 & H3 & H4).
  destruct Hfail as [H|[H|[H|H]]]; [congruence | lia | lia | lia].
Qed.

Lemma create_display_unreachable_witness :
  create_display camera_no_video decoder EmptyString hd_config = None.
Proof.
  apply (proj1 (create_display_unreachable camera_no_video decoder
                  EmptyString hd_config)).
  right; right; right. vm_compute; reflexivity.
Defined.

(** ** The fill step: results, packets, display state *)

Lemma read_frame_not_interrupted (io : frame_io) (d : picamera_display_t)
    (rt : runtime_t) (img : img_t) :
  fill_status (read_frame io d rt img) <> interrupted.
Proof.
  fill_cases; discriminate.
Qed.

(** X10: [read_frame] answers [timeout] in exactly three situations: the
    read says "try again"; a packet of another stream was read; or the
    packet was sent to the decoder and the decoder says "try again".  It
    never answers [interrupted]. *)
Theorem read_frame_timeout_iff (io : frame_io) (d : picamera_display_t)
    (rt : runtime_t) (img : img_t) :
  (fill_status (read_frame io d rt img) = timeout <->
   read_result io = AVERROR EAGAIN
   \/ (0 <= read_result io /\ packet_stream_index io <> index (format d))
   \/ (0 <= read_result io /\ packet_stream_index io = index (format d)
       /\ 0 <= send_result io /\ frame_allocated io = true
       /\ receive_result io = AVERROR EAGAIN))
  /\ fill_status (read_frame io d rt img) <> interrupted.
Proof.
  unfold read_frame.
  destruct (Z.ltb_spec (read_result io) 0) as [Hread|Hread].
  { destruct (Z.eqb_spec (read_result io) (AVERROR EAGAIN)) as [He|He];
      cbn [fill_status]; (split; [|discriminate]).
    - split; [now left | reflexivity].
    - split; [discriminate|].
      intros [H|[[H _]|[H _]]]; [contradiction | lia | lia]. }
  assert (Hne : read_result io <> AVERROR EAGAIN)
    by (unfold AVERROR, EAGAIN; lia).
  destruct (Z.eqb_spec (packet_stream_index io) (index (format d)))
    as [Hidx|Hidx]; cbn [negb].
  2: { cbn [fill_status]. split; [|discriminate].
       split; [intros _; right; left; now split | reflexivity]. }
  destruct (Z.ltb_spec (send_result io) 0) as [Hsend|Hsend].
  { cbn [fill_status]. split; [|discriminate]. split; [discriminate|].
    intros [H|[[_ H]|(_ & _ & H & _)]]; [contradiction | contradiction | lia]. }
  destruct (frame_allocated io) eqn:Hframe; cbn [negb].
  2: { cbn [fill_status]. split; [|discriminate]. split; [discriminate|].
       intros [H|[[_ H]|(_ & _ & _ & H & _)]];
         [contradiction | contradiction | discriminate]. }
  destruct (Z.eqb_spec (receive_result io) (AVERROR EAGAIN)) as [Hrecv|Hrecv].
  { cbn [fill_status]. split; [|discriminate].
    split; [intros _; right; right; now repeat split | reflexivity]. }
  assert (Hno : ~ (read_result io = AVERROR EAGAIN
     \/ (0 <= read_result io /\ packet_stream_index io <> index (format d))
     \/ (0 <= read_result io /\ packet_stream_index io = index (format d)
         /\ 0 <= send_result io /\ true = true
         /\ receive_result io = AVERROR EAGAIN))).
  { intros [H|[[_ H]|(_ & _ & _ & _ & H)]]; contradiction. }
  repeat match goal with
    | |- context [configure ?a ?b ?c ?d ?e ?f ?g ?h] =>
        destruct (configure a b c d e f g h) as [[? ?] ?] eqn:?
    | |- context [new_array ?h ?n] =>
        destruct (new_array h n) as [[? ?]|] eqn:?
    | |- context [if ?b then _ else _] => destruct b eqn:?
    end; cbn [fill_status];
    (split; [split; [discriminate | intros H; destruct (Hno H)] | discriminate]).
Qed.

(** X11: every packet that [read_frame] obtains is released exactly once,
    whichever way the fill ends, and none is released when the read
    failed. *)
Theorem read_frame_releases_packet (io : frame_io) (d : picamera_display_t)
    (rt : runtime_t) (img : img_t) :
  unrefs (fill_calls (read_frame io d rt img))
  = if read_result io <? 0 then 0%nat else 1%nat.
Proof.
  fill_cases; reflexivity.
Qed.

(** X12: a failed read ends the fill after [av_read_frame] alone, with
    [timeout] for "try again" and [error] otherwise, and display,
    allocator and buffer as they were. *)
Theorem read_frame_read_failure (io : frame_io) (d : picamera_display_t)
    (rt : runtime_t) (img : img_t) :
  read_result io < 0 ->
  read_frame io d rt img
  = (if read_result io =? AVERROR EAGAIN then timeout else error,
     d, rt, img, [av_read_frame]).
Proof.
  intros H. unfold read_frame.
  destruct (Z.ltb_spec (read_result io) 0); [|lia].
  destruct (read_result io =? AVERROR EAGAIN); reflexivity.
Qed.

Lemma read_frame_read_failure_witness :
  read_frame io_again running_display runtime0 (pool 0)
  = (timeout, running_display, runtime0, pool 0, [av_read_frame]).
Proof.
  apply (read_frame_read_failure io_again running_display runtime0 (pool 0)).
  vm_compute; reflexivity.
Defined.

(** X13: no fill, however it ends, touches the device session, the
    decoder, the device path or the delay of the display; a fill that does
    not answer [ok] leaves the time stamp of the buffer alone. *)
Theorem read_frame_keeps_sessions (io : frame_io) (d : picamera_display_t)
    (rt : runtime_t) (img : img_t) :
  format (fill_display (read_frame io d rt img)) = format d
  /\ codec (fill_display (read_frame io d rt img)) = codec d
  /\ device (fill_display (read_frame io d rt img)) = device d
  /\ delay (fill_display (read_frame io d rt img)) = delay d
  /\ (fill_status (read_frame io d rt img) <> ok ->
      frame_timestamp (fill_image (read_frame io d rt img))
      = frame_timestamp img).
Proof.
  fill_cases; cbn; repeat split; intros; try reflexivity; congruence.
Qed.

Lemma read_frame_keeps_sessions_witness :
  frame_timestamp (fill_image (read_frame io_foreign running_display runtime0
                                 (pool 0)))
  = frame_timestamp (pool 0).
Proof.
  apply (read_frame_keeps_sessions io_foreign running_display runtime0 (pool 0)).
  vm_compute; congruence.
Defined.

(** What a fill that answers [ok] went through. *)
Lemma read_frame_ok_inv (io : frame_io) (d : picamera_display_t)
    (rt : runtime_t) (img : img_t) :
  fill_status (read_frame io d rt img) = ok ->
  exists s built,
    configure (sws_can_build io) (sws_built rt) (scaler d)
      (frame_width (received io)) (frame_height (received io))
      (frame_format (received io))
      (frame_width (received io)) (frame_height (received io))
    = (true, s, built)
    /\ fill_display (read_frame io d rt img)
       = set_scaler (set_geometry d (frame_width (received io))
                       (frame_height (received io))) s
    /\ sws_built (fill_runtime (read_frame io d rt img)) = built
    /\ frame_timestamp (fill_image (read_frame io d rt img))
       = Some (stamp io)
    /\ 0 <= read_result io
    /\ packet_stream_index io = index (format d)
    /\ 0 < scale_result io.
Proof.
  unfold read_frame.
  destruct (Z.ltb_spec (read_result io) 0).
  { destruct (read_result io =? AVERROR EAGAIN); discriminate. }
  destruct (Z.eqb_spec (packet_stream_index io) (index (format d)));
    cbn [negb]; [|discriminate].
  destruct (send_result io <? 0); [discriminate|].
  destruct (frame_allocated io); cbn [negb]; [|discriminate].
  destruct (receive_result io =? AVERROR EAGAIN); [discriminate|].
  destruct (receive_result io <? 0); [discriminate|].
  change (scaler (set_geometry d (frame_width (received io))
                    (frame_height (received io)))) with (scaler d).
  destruct (configure _ _ _ _ _ _ _ _) as [[configured s] built].
  destruct configured; cbn [negb]; [|discriminate].
  destruct (Z.leb_spec (scale_result io) 0).
  { repeat match goal with
      | |- context [new_array ?h ?n] =>
          destruct (new_array h n) as [[? ?]|]
      | |- context [if ?b then _ else _] => destruct b
      end; cbn; discriminate. }
  intros Hok. exists s, built. revert Hok.
  repeat match goal with
    | |- context [new_array ?h ?n] =>
        destruct (new_array h n) as [[? ?]|]
    | |- context [if ?b then _ else _] => destruct b
    end; cbn; intros Hok; try discriminate Hok;
    repeat split; try assumption; lia.
Qed.

(** The converter a fill that answers [ok] leaves. *)
Lemma read_frame_ok_converter (io : frame_io) (d : picamera_display_t)
    (rt : runtime_t) (img : img_t) :
  fill_status (read_frame io d rt img) = ok ->
  exists c,
    sws_ctx (scaler (fill_display (read_frame io d rt img))) = Some c
    /\ sws_same_config c
         (frame_width (received io)) (frame_height (received io))
         (frame_format (received io))
         (frame_width (received io)) (frame_height (received io))
         AV_PIX_FMT_BGRA SWS_BILINEAR = true.
Proof.
  intros Hok.
  destruct (read_frame_ok_inv io d rt img Hok)
    as (s & built & Hconf & -> & _).
  cbn [scaler set_scaler set_geometry].
  unfold configure in Hconf.
  pose proof (sws_getCachedContext_config (sws_can_build io) (sws_built rt)
                (sws_ctx (scaler d))
                (frame_width (received io)) (frame_height (received io))
                (frame_format (received io))
                (frame_width (received io)) (frame_height (received io))
                AV_PIX_FMT_BGRA SWS_BILINEAR) as Hcfg.
  destruct (sws_getCachedContext _ _ _ _ _ _ _ _ _ _) as [[c|] built'];
    cbn [sws_ctx fst] in *; [|discriminate].
  injection Hconf as <- _. exists c. split; [reflexivity|].
  exact (Hcfg c eq_refl).
Qed.

(** X14: after a fill that answers [ok] the display reports the width and
    height of the decoded frame (also as [env_width] and [env_height]),
    the Conversion Session holds a converter from that geometry and pixel
    format to the same geometry in BGRA, and the buffer carries the time
    of the fill. *)
Theorem read_frame_ok_display (io : frame_io) (d : picamera_display_t)
    (rt : runtime_t) (img : img_t) :
  fill_status (read_frame io d rt img) = ok ->
  display_width (fill_display (read_frame io d rt img))
  = frame_width (received io)
  /\ display_height (fill_display (read_frame io d rt img))
     = frame_height (received io)
  /\ env_width (fill_display (read_frame io d rt img))
     = frame_width (received io)
  /\ env_height (fill_display (read_frame io d rt img))
     = frame_height (received io)
  /\ (exists c,
        sws_ctx (scaler (fill_display (read_frame io d rt img))) = Some c
        /\ sws_same_config c
             (frame_width (received io)) (frame_height (received io))
             (frame_format (received io))
             (frame_width (received io)) (frame_height (received io))
             AV_PIX_FMT_BGRA SWS_BILINEAR = true)
  /\ frame_timestamp (fill_image (read_frame io d rt img)) = Some (stamp io).
Proof.
  intros Hok.
  pose proof (read_frame_ok_converter io d rt img Hok) as Hconv.
  destruct (read_frame_ok_inv io d rt img Hok)
    as (s & built & Hconf & Hdisp & _ & Hstamp & _).
  rewrite Hdisp in *.
  cbn [display_width display_height env_width env_height set_scaler
       set_geometry].
  repeat split; assumption.
Qed.

Lemma read_frame_ok_display_witness :
  display_width (fill_display (read_frame io_frame running_display runtime0
                                 (pool 0))) = 1280
  /\ frame_timestamp (fill_image (read_frame io_frame running_display runtime0
                                    (pool 0))) = Some 5.
Proof.
  assert (Hok : fill_status (read_frame io_frame running_display runtime0
                               (pool 0)) = ok)
    by (vm_compute; reflexivity).
  destruct (read_frame_ok_display io_frame running_display runtime0 (pool 0) Hok)
    as (Hw & _ & _ & _ & _ & Ht).
  split; [exact Hw | exact Ht].
Defined.

Lemma configure_held (can_build : bool) (built : nat) (s : scale_context_t)
    (c : SwsContext) (src_w src_h src_fmt dst_w dst_h : Z) :
  sws_ctx s = Some c ->
  sws_same_config c src_w src_h src_fmt dst_w dst_h AV_PIX_FMT_BGRA SWS_BILINEAR
  = true ->
  configure can_build built s src_w src_h src_fmt dst_w dst_h = (true, s, built).
Proof.
  destruct s as [held]. cbn [sws_ctx]. intros -> Hsame.
  unfold configure, sws_getCachedContext. cbn [sws_ctx]. now rewrite Hsame.
Qed.

Lemma configure_built (can_build : bool) (built : nat) (s : scale_context_t)
    (src_w src_h src_fmt dst_w dst_h : Z) :
  (built <= snd (configure can_build built s src_w src_h src_fmt dst_w dst_h)
   <= S built)%nat.
Proof.
  unfold configure, sws_getCachedContext.
  destruct (sws_ctx s) as [c|].
  - destruct (sws_same_config c _ _ _ _ _ _ _); cbn; [lia|].
    destruct can_build; cbn; lia.
  - destruct can_build; cbn; lia.
Qed.

(** The converter and the count of converters after a fill are those
    before it, or those [configure] leaves for the received frame. *)
Lemma read_frame_scaler (io : frame_io) (d : picamera_display_t)
    (rt : runtime_t) (img : img_t) :
  let configured :=
    configure (sws_can_build io) (sws_built rt) (scaler d)
      (frame_width (received io)) (frame_height (received io))
      (frame_format (received io))
      (frame_width (received io)) (frame_height (received io)) in
  (scaler (fill_display (read_frame io d rt img)) = scaler d
   /\ sws_built (fill_runtime (read_frame io d rt img)) = sws_built rt)
  \/ (scaler (fill_display (read_frame io d rt img)) = snd (fst configured)
      /\ sws_built (fill_runtime (read_frame io d rt img)) = snd configured).
Proof.
  intros configured. subst configured. unfold read_frame.
  change (scaler (set_geometry d (frame_width (received io))
                    (frame_height (received io)))) with (scaler d).
  destruct (configure _ _ _ _ _ _ _ _) as [[configured s] built].
  repeat match goal with
    | |- context [new_array ?h ?n] =>
        destruct (new_array h n) as [[? ?]|] eqn:?
    | |- context [if ?b then _ else _] => destruct b eqn:?
    end; cbn; auto.
Qed.

(** X15: a fill builds at most one converter; and once a fill has answered
    [ok], a further fill whose frame has the same width, height and pixel
    format keeps the converter and builds none, however it ends. *)
Theorem read_frame_converter_reuse (io io2 : frame_io)
    (d : picamera_display_t) (rt : runtime_t) (img : img_t) :
  let filled := read_frame io d rt img in
  let again :=
    read_frame io2 (fill_display filled) (fill_runtime filled)
      (fill_image filled) in
  (sws_built rt <= sws_built (fill_runtime filled) <= S (sws_built rt))%nat
  /\ (fill_status filled = ok ->
      received io2 = received io ->
      scaler (fill_display again) = scaler (fill_display filled)
      /\ sws_built (fill_runtime again) = sws_built (fill_runtime filled)).
Proof.
  intros filled again. subst again filled. split.
  - pose proof (configure_built (sws_can_build io) (sws_built rt) (scaler d)
                  (frame_width (received io)) (frame_height (received io))
                  (frame_format (received io))
                  (frame_width (received io)) (frame_height (received io))).
    destruct (read_frame_scaler io d rt img) as [[_ ->]|[_ ->]]; lia.
  - intros Hok Hsame.
    destruct (read_frame_ok_converter io d rt img Hok) as (c & Hc & Hcfg).
    destruct (read_frame_scaler io2
                (fill_display (read_frame io d rt img))
                (fill_runtime (read_frame io d rt img))
                (fill_image (read_frame io d rt img))) as [H|H]; [exact H|].
    rewrite Hsame in H.
    rewrite (configure_held _ _ _ c _ _ _ _ _ Hc Hcfg) in H. exact H.
Qed.

Lemma read_frame_converter_reuse_witness :
  sws_built (fill_runtime
               (read_frame io_frame
                  (fill_display (read_frame io_frame running_display runtime0 (pool 0)))
                  (fill_runtime (read_frame io_frame running_display runtime0 (pool 0)))
                  (fill_image (read_frame io_frame running_display runtime0 (pool 0)))))
  = sws_built (fill_runtime (read_frame io_frame running_display runtime0 (pool 0))).
Proof.
  assert (Hok : fill_status (read_frame io_frame running_display runtime0
                               (pool 0)) = ok)
    by (vm_compute; reflexivity).
  exact (proj2 (proj2 (read_frame_converter_reuse io_frame io_frame
                         running_display runtime0 (pool 0)) Hok eq_refl)).
Defined.

(** ** Buffers: [alloc_img], [dummy_img] and the fill step *)



Ltac kept_buffer :=
  match goal with
  | H : _ || _ || _ = false |- _ =>
      let Hd := fresh "Hdata" in
      let Hp := fresh "Hpitch" in
      let Hh := fresh "Hheight" in
      apply orb_false_elim in H; destruct H as [H Hh];
      apply orb_false_elim in H; destruct H as [Hd Hp];
      apply negb_false_iff, Z.eqb_eq in Hh;
      apply negb_false_iff, Z.eqb_eq in Hp
  end.

Lemma new_array_granted (h h' : heap_t) (n : Z) (b : block) :
  new_array h n = Some (b, h') ->
  b = mk_block (next_block h) n
  /\ h' = mk_heap (S (next_block h)) (freed h) (grants h)
  /\ n <= PTRDIFF_MAX
  /\ grants h (next_block h) n = true.
Proof.
  unfold new_array.
  destruct (Z.leb_spec n PTRDIFF_MAX); cbn [andb]; [|discriminate].
  destruct (grants h (next_block h) n); [|discriminate].
  intros [= <- <-]. repeat split. assumption.
Qed.

Lemma new_array_refused (h : heap_t) (n : Z) :
  new_array h n = None <->
  PTRDIFF_MAX < n \/ grants h (next_block h) n = false.
Proof.
  unfold new_array.
  destruct (Z.leb_spec n PTRDIFF_MAX); cbn [andb].
  - destruct (grants h (next_block h) n).
    + split; [discriminate | intros [H'|H']; [lia | discriminate]].
    + split; [now right | reflexivity].
  - split; [now left | reflexivity].
Qed.

Lemma int_array_bytes (width height : Z) :
  0 <= width -> width * 4 < 2 ^ 31 -> 0 <= height < 2 ^ 31 ->
  int_wrap (width * 4) = width * 4
  /\ array_bytes (int_wrap (width * 4)) height = width * 4 * height.
Proof.
  intros Hw0 Hw Hh.
  assert (Hsmall : - 2 ^ 31 <= width * 4 < 2 ^ 31)
    by (change (2 ^ 31) with 2147483648 in *; lia).
  rewrite (int_wrap_small _ Hsmall). split; [reflexivity|].
  apply array_bytes_small; [|exact Hh].
  change (2 ^ 31) with 2147483648 in *; lia.
Qed.

(** X17: the pixel data of a buffer stays a block of
    [size_t(row_pitch) * height] bytes through every fill that returns,
    and after a fill that answers [ok] the buffer has pixel data of that
    size, which is [width * 4 * height] when the width, four times the
    width and the height of the buffer are non-negative [int]s. *)
Theorem read_frame_buffer_sized (io : frame_io) (d : picamera_display_t)
    (rt : runtime_t) (img : img_t) :
  let filled := read_frame io d rt img in
  buffer_sized img ->
  (fill_status filled <> bad_alloc -> buffer_sized (fill_image filled))
  /\ (fill_status filled = ok ->
      exists b, data (fill_image filled) = Some b
        /\ blk_size b
           = array_bytes (row_pitch (fill_image filled))
               (height (fill_image filled))
        /\ (0 <= width (fill_image filled) ->
            width (fill_image filled) * 4 < 2 ^ 31 ->
            0 <= height (fill_image filled) < 2 ^ 31 ->
            blk_size b
            = width (fill_image filled) * 4 * height (fill_image filled))).
Proof.
  intros filled Hsized. subst filled.
  assert (Hok : fill_status (read_frame io d rt img) = ok ->
                exists b, data (fill_image (read_frame io d rt img)) = Some b
                  /\ blk_size b
                     = array_bytes (row_pitch (fill_image (read_frame io d rt img)))
                         (height (fill_image (read_frame io d rt img)))).
  { intros Hok.
    destruct (read_frame_ok_buffer io d rt img Hok)
      as (Hpitch & _ & _ & Hheight & Halloc).
    rewrite Hpitch, Hheight.
    destruct (is_null (data img)
              || negb (row_pitch img
                       =? int_wrap (frame_width (received io) * 4))
              || negb (height img =? frame_height (received io))) eqn:E.
    - destruct Halloc as [-> _]. eexists. split; reflexivity.
    - destruct Halloc as [-> _]. kept_buffer.
      unfold buffer_sized in Hsized.
      destruct (data img) as [b|]; [|discriminate].
      exists b. split; [reflexivity|]. congruence. }
  split.
  - intros Hthrown.
    destruct (fill_status (read_frame io d rt img)) as [[| | |]|] eqn:Hst;
      [| | |  |congruence].
    + destruct (Hok eq_refl) as (b & Hb & Hsize).
      unfold buffer_sized. now rewrite Hb.
    + destruct (read_frame_timeout_unchanged io d rt img Hst) as (_ & _ & ->).
      exact Hsized.
    + exfalso. revert Hst. apply read_frame_not_interrupted.
    + revert Hst. unfold buffer_sized in *.
      fill_cases; new_array_inv; cbn; intros Hst; try discriminate Hst;
        try assumption; try reflexivity.
      all: kept_buffer; destruct (data _); [congruence | exact I].
  - intros Hst. destruct (Hok Hst) as (b & Hb & Hsize).
    exists b. split; [exact Hb|]. split; [exact Hsize|].
    intros Hw0 Hw Hh.
    destruct (read_frame_ok_buffer io d rt img Hst)
      as (Hpitch & _ & Hwidth & _).
    rewrite Hsize, Hpitch, <- Hwidth.
    now apply int_array_bytes.
Qed.

Lemma read_frame_buffer_sized_witness :
  buffer_sized (fill_image (read_frame io_frame running_display runtime0 (pool 0))).
Proof.
  assert (Hsized : buffer_sized (pool 0)) by (vm_compute; reflexivity).
  assert (Hret : fill_status (read_frame io_frame running_display runtime0 (pool 0))
                 <> bad_alloc) by (vm_compute; congruence).
  exact (proj1 (read_frame_buffer_sized io_frame running_display runtime0
                  (pool 0) Hsized) Hret).
Defined.


(** Two displays outside the ordinary sizes: 1073741825 by 2, where the
    32-bit row pitch is 4 and the block has 8 bytes, and -1 by 1, where
    the size is above [PTRDIFF_MAX] and [new[]] throws. *)
Lemma alloc_img_edge_sizes :
  (exists img h,
      alloc_img (set_geometry running_display 1073741825 2)
        (mk_heap 0 [] (fun _ _ => true)) = Some (img, h)
      /\ row_pitch img = 4
      /\ data img = Some (mk_block 0 8))
  /\ alloc_img (set_geometry running_display (-1) 1)
       (mk_heap 0 [] (fun _ _ => true)) = None.
Proof.
  split; [|vm_compute; reflexivity].
  eexists. eexists. split; [vm_compute; reflexivity|].
  split; reflexivity.
Qed.


(** X19: [dummy_img] answers -1 exactly for the null image.  An image
    that has pixel data is kept, nothing is allocated, and the answer is
    0.  For an image without pixel data it asks for
    [size_t(row_pitch) * height] bytes, with the 32-bit product of the
    display's width and 4 as row pitch: it throws if the allocator
    refuses, and otherwise answers 0 with a new block of that size
    ([width * 4 * height] bytes for a display whose width, four times its
    width and height are non-negative [int]s).  After an answer of 0 the
    image has pixel data and calling it again changes nothing. *)
Theorem dummy_img_blank (d : picamera_display_t) (h : heap_t)
    (img : option img_t) :
  let bytes :=
    array_bytes (int_wrap (display_width d * 4)) (display_height d) in
  (fst (fst (dummy_img d h img)) = Some (-1) <-> img = None)
  /\ (forall i, img = Some i -> data i <> None ->
      dummy_img d h img = (Some 0, Some i, h))
  /\ (forall i, img = Some i -> data i = None ->
      (fst (fst (dummy_img d h img)) = None <->
       PTRDIFF_MAX < bytes \/ grants h (next_block h) bytes = false))
  /\ (forall i i' h', img = Some i ->
      dummy_img d h img = (Some 0, Some i', h') ->
      data i' <> None
      /\ (data i = None ->
          data i' = Some (mk_block (next_block h) bytes)
          /\ row_pitch i' = int_wrap (display_width d * 4)
          /\ height i' = display_height d
          /\ (0 <= display_width d -> display_width d * 4 < 2 ^ 31 ->
              0 <= display_height d < 2 ^ 31 ->
              row_pitch i' = display_width d * 4
              /\ bytes = display_width d * 4 * display_height d))
      /\ (buffer_sized i -> buffer_sized i')
      /\ dummy_img d h' (Some i') = (Some 0, Some i', h')).
Proof.
  intros bytes. subst bytes. split; [|split; [|split]].
  - destruct img as [i|]; cbn.
    + destruct (data i); [split; discriminate|].
      destruct (new_array h _) as [[b h1]|]; split; discriminate.
    + split; reflexivity.
  - intros i -> Hdata. unfold dummy_img.
    destruct (data i); [reflexivity | congruence].
  - intros i -> Hdata. unfold dummy_img. rewrite Hdata.
    cbn [row_pitch height set_row_pitch set_height].
    rewrite <- new_array_refused.
    destruct (new_array h _) as [[b h1]|]; split; cbn; congruence.
  - intros i i' h' ->. unfold dummy_img at 1.
    destruct (data i) as [b|] eqn:Hdata.
    + intros [= <- <-]. unfold dummy_img. rewrite Hdata.
      repeat split; congruence.
    + cbn [row_pitch height set_row_pitch set_height].
      destruct (new_array h _) as [[b h1]|] eqn:Hnew; [|discriminate].
      intros [= <- <-].
      destruct (new_array_granted _ _ _ _ Hnew) as (-> & -> & _).
      cbn [data row_pitch height set_data set_row_pitch set_height].
      split; [discriminate|]. split; [|split].
      * intros _. do 3 (split; [reflexivity|]).
        intros Hw0 Hw Hh. now apply int_array_bytes.
      * intros _. unfold buffer_sized.
        cbn [data row_pitch height set_data set_row_pitch set_height].
        reflexivity.
      * reflexivity.
Qed.

Lemma dummy_img_blank_witness :
  dummy_img running_display (mk_heap 0 [] (fun _ _ => true)) (Some (pool 0))
  = (Some 0, Some (pool 0), mk_heap 0 [] (fun _ _ => true)).
Proof.
  assert (H : data (pool 0) <> None) by (vm_compute; congruence).
  exact (proj1 (proj2 (dummy_img_blank running_display
                         (mk_heap 0 [] (fun _ _ => true)) (Some (pool 0))))
           (pool 0) eq_refl H).
Defined.

(** ** The paced loop: results, calls, schedule *)

Lemma pulls_app (a b : list call) :
  pulls (a ++ b) = (pulls a + pulls b)%nat.
Proof.
  induction a as [|c a IH]; [reflexivity|].
  destruct c; cbn; now rewrite ?IH.
Qed.

Lemma sleeps_app (a b : list call) :
  sleeps (a ++ b) = (sleeps a ++ sleeps b)%list.
Proof.
  induction a as [|c a IH]; [reflexivity|].
  destruct c; cbn; now rewrite ?IH.
Qed.

Lemma read_frame_pulls (io : frame_io) (d : picamera_display_t)
    (rt : runtime_t) (img : img_t) :
  pulls (fill_calls (read_frame io d rt img)) = 0%nat
  /\ sleeps (fill_calls (read_frame io d rt img)) = [].
Proof.
  fill_cases; split; reflexivity.
Qed.

(** X20: when the loop reaches an iteration in which the fill step answers
    [error], [capture] returns [error] whatever would have followed, and
    that iteration pushes nothing. *)
Theorem capture_fill_error (d : picamera_display_t) (r : runtime_t)
    (imgs : nat -> img_t) (start : Z) (pre rest : list tick) (t : tick)
    (s : capture_state) (calls : list call) (p : nat) :
  capture d r imgs start pre = (s, calls, None) ->
  pull t = Some p ->
  fill_status (read_frame (io t) (disp s) (rt s) (images s p)) = error ->
  snd (capture d r imgs start (pre ++ t :: rest)) = Some error
  /\ pushes (snd (fst (capture d r imgs start (pre ++ t :: rest))))
     = pushes calls.
Proof.
  intros Hrun Hpull Hst. unfold capture in *.
  rewrite (loop_app _ _ _ _ _ Hrun). cbn [loop].
  rewrite (iteration_pulled s t p Hpull). cbv zeta. rewrite Hst.
  cbn [fst snd]. split; [reflexivity|].
  rewrite !pushes_app, wait_pushes, read_frame_pushes. cbn.
  now rewrite app_nil_r.
Qed.

Lemma capture_fill_error_witness :
  snd (capture running_display runtime0 pool 0
         ([] ++ mk_tick 1 (Some 0%nat)
                  (mk_frame_io (AVERROR EIO) 0 0 true 0 (mk_frame 0 0 0) true 0 0)
                  true
             :: [mk_tick 40000000 (Some 0%nat) io_frame true]))
  = Some error.
Proof.
  apply (capture_fill_error running_display runtime0 pool 0 []
           [mk_tick 40000000 (Some 0%nat) io_frame true]
           (mk_tick 1 (Some 0%nat)
              (mk_frame_io (AVERROR EIO) 0 0 true 0 (mk_frame 0 0 0) true 0 0)
              true)
           (mk_state running_display runtime0 pool 0) [] 0%nat).
  - reflexivity.
  - reflexivity.
  - vm_compute; reflexivity.
Defined.

Lemma read_frame_last_call (io : frame_io) (d : picamera_display_t)
    (rt : runtime_t) (img : img_t) :
  exists front c,
    fill_calls (read_frame io d rt img) = (front ++ [c])%list
    /\ pushes [c] = [] /\ pulls [c] = 0%nat.
Proof.
  assert (Hne : fill_calls (read_frame io d rt img) <> [])
    by (fill_cases; discriminate).
  destruct (exists_last Hne) as (front & c & Heq).
  exists front, c. split; [exact Heq|].
  pose proof (read_frame_pushes io d rt img) as Hp.
  destruct (read_frame_pulls io d rt img) as [Hq _].
  rewrite Heq, pushes_app in Hp. rewrite Heq, pulls_app in Hq.
  apply app_eq_nil in Hp. split; [tauto | lia].
Qed.

Lemma iteration_ends_as (s : capture_state) (t : tick) :
  ends_as (snd (fst (iteration s t))) (snd (iteration s t)).
Proof.
  destruct (pull t) as [p|] eqn:Hpull.
  - rewrite (iteration_pulled s t p Hpull). cbv zeta. cbn [fst snd].
    pose proof (read_frame_not_interrupted (io t) (disp s) (rt s) (images s p))
      as Hni.
    destruct (read_frame_last_call (io t) (disp s) (rt s) (images s p))
      as (front & c & Hcalls & Hc).
    destruct (fill_status _) as [[| | |]|] eqn:Hst.
    + destruct (push t); cbn; [exact I|].
      eexists. eexists. eexists. rewrite app_assoc. reflexivity.
    + destruct (push t); cbn; [exact I|].
      eexists. eexists. eexists. rewrite app_assoc. reflexivity.
    + contradiction.
    + cbn. exists ((wait (next_frame s) (now t) ++ [pull_free_image_cb])
                   ++ front)%list, c.
      split; [|exact Hc].
      rewrite Hcalls, app_nil_r, app_assoc. reflexivity.
    + cbn. exists ((wait (next_frame s) (now t) ++ [pull_free_image_cb])
                   ++ front)%list, c.
      split; [|exact Hc].
      rewrite Hcalls, app_nil_r, app_assoc. reflexivity.
  - rewrite (iteration_refused s t Hpull). cbn. eexists. reflexivity.
Qed.

Lemma ends_as_app (calls later : list call) (returned : option outcome) :
  ends_as later returned -> ends_as (calls ++ later) returned.
Proof.
  destruct returned as [[[| | |]|]|]; cbn; try tauto.
  - intros (front & p & is_new & ->).
    exists (calls ++ front)%list, p, is_new. now rewrite app_assoc.
  - intros (front & ->). exists (calls ++ front)%list. now rewrite app_assoc.
  - intros (front & c & -> & Hc).
    exists (calls ++ front)%list, c. now rewrite app_assoc.
  - intros (front & c & -> & Hc).
    exists (calls ++ front)%list, c. now rewrite app_assoc.
Qed.

Lemma loop_ends_as (ticks : list tick) (s : capture_state) :
  ends_as (snd (fst (loop s ticks))) (snd (loop s ticks)).
Proof.
  revert s. induction ticks as [|t ticks IH]; intros s; [exact I|].
  cbn [loop].
  pose proof (iteration_ends_as s t) as Hit.
  destruct (iteration s t) as [[s1 calls] [e|]]; cbn [fst snd] in *.
  - exact Hit.
  - specialize (IH s1).
    destruct (loop s1 ticks) as [[s2 later] returned]; cbn [fst snd] in *.
    now apply ends_as_app.
Qed.

(** X21: [capture] never returns [timeout].  A run that returns
    [interrupted] ends with the refused [pull_free_image_cb]; one that
    returns [ok] ends with the declined push; one that returns [error]
    ends with a call into the libraries. *)
Theorem capture_result_shape (d : picamera_display_t) (r : runtime_t)
    (imgs : nat -> img_t) (start : Z) (ticks : list tick) :
  snd (capture d r imgs start ticks) <> Some timeout
  /\ (snd (capture d r imgs start ticks) = Some interrupted ->
      exists front,
        snd (fst (capture d r imgs start ticks))
        = (front ++ [pull_free_image_cb])%list)
  /\ (snd (capture d r imgs start ticks) = Some ok ->
      exists front p is_new,
        snd (fst (capture d r imgs start ticks))
        = (front ++ [push_captured_image_cb p is_new])%list)
  /\ (snd (capture d r imgs start ticks) = Some error ->
      exists front c,
        snd (fst (capture d r imgs start ticks)) = (front ++ [c])%list
        /\ pushes [c] = [] /\ pulls [c] = 0%nat).
Proof.
  unfold capture.
  pose proof (loop_ends_as ticks (mk_state d r imgs start)) as H.
  destruct (loop (mk_state d r imgs start) ticks) as [[s calls] returned].
  cbn [fst snd] in *.
  repeat split; intros Hr; rewrite Hr in H; exact H.
Qed.

Lemma capture_result_shape_witness :
  exists front,
    snd (fst (capture running_display runtime0 pool 0
                [mk_tick 1 (Some 0%nat) io_frame true;
                 mk_tick 40000000 None io_frame true]))
    = (front ++ [pull_free_image_cb])%list.
Proof.
  apply (proj1 (proj2 (capture_result_shape running_display runtime0 pool 0
                         [mk_tick 1 (Some 0%nat) io_frame true;
                          mk_tick 40000000 None io_frame true]))).
  vm_compute; reflexivity.
Defined.

Lemma iteration_counts (s : capture_state) (t : tick) :
  pulls (snd (fst (iteration s t))) = 1%nat
  /\ List.length (pushes (snd (fst (iteration s t))))
     = match snd (iteration s t) with
       | None | Some (returns ok) => 1%nat
       | _ => 0%nat
       end.
Proof.
  destruct (pull t) as [p|] eqn:Hpull.
  - rewrite (iteration_pulled s t p Hpull). cbv zeta. cbn [fst snd].
    destruct (read_frame_pulls (io t) (disp s) (rt s) (images s p)) as [Hq _].
    assert (Hw : pulls (wait (next_frame s) (now t)) = 0%nat)
      by (unfold wait; destruct (_ >? _); reflexivity).
    rewrite !pulls_app, !pushes_app, Hq, Hw, wait_pushes, read_frame_pushes.
    destruct (fill_status _) as [[| | |]|]; try destruct (push t);
      split; reflexivity.
  - rewrite (iteration_refused s t Hpull). cbn [fst snd].
    assert (Hw : pulls (wait (next_frame s) (now t)) = 0%nat)
      by (unfold wait; destruct (_ >? _); reflexivity).
    rewrite pulls_app, pushes_app, Hw, wait_pushes. split; reflexivity.
Qed.

Lemma loop_counts (ticks : list tick) (s : capture_state) :
  (pulls (snd (fst (loop s ticks))) <= List.length ticks)%nat
  /\ match snd (loop s ticks) with
     | None =>
         pulls (snd (fst (loop s ticks))) = List.length ticks
         /\ List.length (pushes (snd (fst (loop s ticks)))) = List.length ticks
     | Some (returns ok) =>
         List.length (pushes (snd (fst (loop s ticks))))
         = pulls (snd (fst (loop s ticks)))
     | Some _ =>
         pulls (snd (fst (loop s ticks)))
         = S (List.length (pushes (snd (fst (loop s ticks)))))
     end.
Proof.
  revert s. induction ticks as [|t ticks IH]; intros s.
  - cbn. repeat split; lia.
  - cbn [loop List.length].
    destruct (iteration_counts s t) as [Hq Hp].
    destruct (iteration s t) as [[s1 calls] [e|]]; cbn [fst snd] in *.
    + split; [lia|]. destruct e as [[| | |]|]; lia.
    + specialize (IH s1).
      destruct (loop s1 ticks) as [[s2 later] returned]; cbn [fst snd] in *.
      rewrite pulls_app, pushes_app, length_app, Hq, Hp.
      destruct IH as [IH1 IH2]. split; [lia|].
      destruct returned as [[[| | |]|]|]; lia.
Qed.

(** X22: in every run the loop asks for one buffer per iteration.  While
    it runs, and when it returns [ok], every buffer asked for was pushed
    back, new or repeated, so a run still going after n ticks has made n
    pushes; a run that returns [interrupted] or [error] has pushed one
    buffer less than it asked for. *)
Theorem capture_push_per_pull (d : picamera_display_t) (r : runtime_t)
    (imgs : nat -> img_t) (start : Z) (ticks : list tick) :
  (pulls (snd (fst (capture d r imgs start ticks))) <= List.length ticks)%nat
  /\ (snd (capture d r imgs start ticks) = None ->
      pulls (snd (fst (capture d r imgs start ticks))) = List.length ticks
      /\ List.length (pushes (snd (fst (capture d r imgs start ticks))))
         = List.length ticks)
  /\ (snd (capture d r imgs start ticks) = Some ok ->
      List.length (pushes (snd (fst (capture d r imgs start ticks))))
      = pulls (snd (fst (capture d r imgs start ticks))))
  /\ (snd (capture d r imgs start ticks) = Some interrupted
      \/ snd (capture d r imgs start ticks) = Some error ->
      pulls (snd (fst (capture d r imgs start ticks)))
      = S (List.length (pushes (snd (fst (capture d r imgs start ticks)))))).
Proof.
  unfold capture.
  destruct (loop_counts ticks (mk_state d r imgs start)) as [Hle Hm].
  destruct (loop (mk_state d r imgs start) ticks) as [[s calls] returned].
  cbn [fst snd] in *.
  split; [exact Hle|].
  split; [intros ->; exact Hm|].
  split; [intros ->; exact Hm|].
  intros [->| ->]; exact Hm.
Qed.

Lemma capture_push_per_pull_witness :
  List.length (pushes (snd (fst (capture running_display runtime0 pool 0
                              [mk_tick 1 (Some 0%nat) io_frame true;
                               mk_tick 40000000 (Some 1%nat) io_again true]))))
  = 2%nat.
Proof.
  apply (proj1 (proj2 (capture_push_per_pull running_display runtime0 pool 0
                         [mk_tick 1 (Some 0%nat) io_frame true;
                          mk_tick 40000000 (Some 1%nat) io_again true]))).
  vm_compute; reflexivity.
Defined.

Lemma wait_sleeps (next now : Z) :
  sleeps (wait next now) = if next >? now then [next - now] else [].
Proof.
  unfold wait. destruct (next >? now); reflexivity.
Qed.

Lemma iteration_sleeps (s : capture_state) (t : tick) :
  sleeps (snd (fst (iteration s t)))
  = if next_frame s >? now t then [next_frame s - now t] else [].
Proof.
  destruct (pull t) as [p|] eqn:Hpull.
  - rewrite (iteration_pulled s t p Hpull). cbv zeta. cbn [fst snd].
    destruct (read_frame_pulls (io t) (disp s) (rt s) (images s p)) as [_ Hs].
    rewrite !sleeps_app, Hs, wait_sleeps.
    destruct (fill_status _) as [[| | |]|]; cbn; now rewrite !app_nil_r.
  - rewrite (iteration_refused s t Hpull). cbn [fst snd].
    rewrite sleeps_app, wait_sleeps. cbn. now rewrite app_nil_r.
Qed.

(** X23: in every iteration the running loop reaches, the schedule does
    not move backwards and is never more than one delay ahead of the later
    of the previous tick and [now]; the iteration sleeps exactly when the
    previous tick is still ahead of [now], for the time that is left. *)
Theorem capture_schedule_bounds (d : picamera_display_t) (r : runtime_t)
    (imgs : nat -> img_t) (start : Z) (pre : list tick) (t : tick)
    (s : capture_state) (calls : list call) :
  0 <= delay d ->
  capture d r imgs start pre = (s, calls, None) ->
  next_frame s <= next_frame (fst (fst (iteration s t)))
  /\ next_frame (fst (fst (iteration s t)))
     <= Z.max (next_frame s) (now t) + delay d
  /\ sleeps (snd (fst (iteration s t)))
     = (if next_frame s >? now t then [next_frame s - now t] else []).
Proof.
  intros Hdelay Hrun.
  assert (Hd : delay (disp s) = delay d).
  { pose proof (loop_delay pre (mk_state d r imgs start)) as H.
    unfold capture in Hrun. rewrite Hrun in H. exact H. }
  rewrite iteration_next_frame, Hd, iteration_sleeps. unfold pace.
  destruct (Z.ltb_spec (next_frame s + delay d) (now t));
    repeat split; lia.
Qed.

Lemma capture_schedule_bounds_witness :
  sleeps (snd (fst (iteration
                      (fst (fst (capture running_display runtime0 pool 0
                                   [mk_tick 1 (Some 0%nat) io_frame true])))
                      (mk_tick 20000000 (Some 0%nat) io_frame true))))
  = [13333333].
Proof.
  refine (proj2 (proj2 (capture_schedule_bounds running_display runtime0 pool 0
                          [mk_tick 1 (Some 0%nat) io_frame true]
                          (mk_tick 20000000 (Some 0%nat) io_frame true)
                          (fst (fst (capture running_display runtime0 pool 0
                                       [mk_tick 1 (Some 0%nat) io_frame true])))
                          (snd (fst (capture running_display runtime0 pool 0
                                       [mk_tick 1 (Some 0%nat) io_frame true])))
                          _ _))).
  - vm_compute; congruence.
  - vm_compute; reflexivity.
Defined.

Lemma loop_schedule (ticks : list tick) (s : capture_state) :
  0 <= delay (disp s) ->
  next_frame s <= next_frame (fst (fst (loop s ticks)))
  /\ Forall (fun d => 0 < d) (sleeps (snd (fst (loop s ticks))))
  /\ (List.length (sleeps (snd (fst (loop s ticks)))) <= List.length ticks)%nat.
Proof.
  revert s. induction ticks as [|t ticks IH]; intros s Hdelay.
  - cbn. repeat split; [lia | constructor | lia].
  - cbn [loop List.length].
    pose proof (iteration_next_frame s t) as Hnext.
    pose proof (iteration_delay s t) as Hd.
    pose proof (iteration_sleeps s t) as Hs.
    assert (Hpace : next_frame s <= pace (next_frame s) (now t) (delay (disp s))).
    { unfold pace. destruct (_ <? _) eqn:E; [apply Z.ltb_lt in E|]; lia. }
    assert (Hpos : Forall (fun d => 0 < d)
                     (if next_frame s >? now t
                      then [next_frame s - now t] else [])).
    { destruct (Z.gtb_spec (next_frame s) (now t)); repeat constructor. lia. }
    assert (Hlen : (List.length (if (next_frame s >? now t)%Z
                                 then [(next_frame s - now t)%Z] else [])
                    <= 1)%nat).
    { destruct (_ >? _); cbn; lia. }
    destruct (iteration s t) as [[s1 calls] [e|]]; cbn [fst snd] in *.
    + rewrite Hs. repeat split; [lia | exact Hpos | lia].
    + destruct (IH s1) as (IH1 & IH2 & IH3); [lia|].
      destruct (loop s1 ticks) as [[s2 later] returned]; cbn [fst snd] in *.
      rewrite sleeps_app, length_app, Hs.
      repeat split; [lia | apply Forall_app; split; assumption | lia].
Qed.

(** X24: over a whole run the schedule only moves forward from the start
    time, every sleep is for a positive time, and there is at most one
    sleep per iteration. *)
Theorem capture_sleeps_positive (d : picamera_display_t) (r : runtime_t)
    (imgs : nat -> img_t) (start : Z) (ticks : list tick) :
  0 <= delay d ->
  start <= next_frame (fst (fst (capture d r imgs start ticks)))
  /\ Forall (fun t => 0 < t) (sleeps (snd (fst (capture d r imgs start ticks))))
  /\ (List.length (sleeps (snd (fst (capture d r imgs start ticks))))
      <= List.length ticks)%nat.
Proof.
  intros Hdelay. unfold capture.
  exact (loop_schedule ticks (mk_state d r imgs start) Hdelay).
Qed.

Lemma capture_sleeps_positive_witness :
  Forall (fun t => 0 < t)
    (sleeps (snd (fst (capture running_display runtime0 pool 0
                         [mk_tick 1 (Some 0%nat) io_frame true;
                          mk_tick 20000000 (Some 0%nat) io_frame true])))).
Proof.
  apply (capture_sleeps_positive running_display runtime0 pool 0
           [mk_tick 1 (Some 0%nat) io_frame true;
            mk_tick 20000000 (Some 0%nat) io_frame true]).
  vm_compute; congruence.
Defined.

Lemma iteration_other_images (s : capture_state) (t : tick) (q : nat) :
  pull t <> Some q ->
  images (fst (fst (iteration s t))) q = images s q.
Proof.
  intros Hq. destruct (pull t) as [p|] eqn:Hpull.
  - rewrite (iteration_pulled s t p Hpull). cbv zeta. cbn [fst images].
    unfold store. destruct (Nat.eqb_spec q p); [congruence | reflexivity].
  - now rewrite (iteration_refused s t Hpull).
Qed.

(** X25: a run writes only to the images the consumer handed out: an
    image that no iteration pulled is, after the run, what it was before. *)
Theorem capture_touches_pulled_only (d : picamera_display_t) (r : runtime_t)
    (imgs : nat -> img_t) (start : Z) (ticks : list tick) (q : nat) :
  (forall t, In t ticks -> pull t <> Some q) ->
  images (fst (fst (capture d r imgs start ticks))) q = imgs q.
Proof.
  unfold capture.
  change (imgs q) with (images (mk_state d r imgs start) q).
  generalize (mk_state d r imgs start).
  induction ticks as [|t ticks IH]; intros s Hall; [reflexivity|].
  cbn [loop].
  pose proof (iteration_other_images s t q (Hall t (or_introl eq_refl))) as Hit.
  destruct (iteration s t) as [[s1 calls] [e|]]; cbn [fst] in *.
  - exact Hit.
  - specialize (IH s1 (fun t' Hin => Hall t' (or_intror Hin))).
    destruct (loop s1 ticks) as [[s2 later] returned]; cbn [fst] in *.
    congruence.
Qed.

Lemma capture_touches_pulled_only_witness :
  images (fst (fst (capture running_display runtime0 pool 0
                      [mk_tick 1 (Some 0%nat)
                         (mk_frame_io 0 0 0 true 0 (mk_frame 640 480 0) true 480 7)
                         true]))) 1%nat
  = pool 1.
Proof.
  apply (capture_touches_pulled_only running_display runtime0 pool 0
           [mk_tick 1 (Some 0%nat)
              (mk_frame_io 0 0 0 true 0 (mk_frame 640 480 0) true 480 7)
              true] 1%nat).
  intros t [<-|[]]. cbn. discriminate.
Defined.

(** X26: when the loop reaches an iteration in which the fill step answers
    [ok] and the consumer accepts the push, the loop keeps running; the
    iteration pushes the pulled buffer once, flagged new, and the image
    then has the width and height of the frame, the 32-bit product
    [width * 4] as row pitch (which is [width * 4] whenever that is an
    [int]) and the time of the fill. *)
Theorem capture_new_frame_pushed (d : picamera_display_t) (r : runtime_t)
    (imgs : nat -> img_t) (start : Z) (pre : list tick) (t : tick)
    (s : capture_state) (calls : list call) (p : nat) :
  capture d r imgs start pre = (s, calls, None) ->
  pull t = Some p ->
  push t = true ->
  fill_status (read_frame (io t) (disp s) (rt s) (images s p)) = ok ->
  exists s' later,
    capture d r imgs start (pre ++ [t]) = (s', (calls ++ later)%list, None)
    /\ pushes later = [(p, true)]
    /\ width (images s' p) = frame_width (received (io t))
    /\ height (images s' p) = frame_height (received (io t))
    /\ row_pitch (images s' p) = int_wrap (frame_width (received (io t)) * 4)
    /\ (- 2 ^ 31 <= frame_width (received (io t)) * 4 < 2 ^ 31 ->
        row_pitch (images s' p) = frame_width (received (io t)) * 4)
    /\ frame_timestamp (images s' p) = Some (stamp (io t)).
Proof.
  intros Hrun Hpull Hpush Hok. unfold capture in *.
  rewrite (loop_app _ _ _ _ _ Hrun). cbn [loop].
  rewrite (iteration_pulled s t p Hpull). cbv zeta. rewrite Hok, Hpush.
  eexists. eexists. split; [rewrite app_nil_r; reflexivity|].
  destruct (read_frame_ok_buffer _ _ _ _ Hok) as (Hp & _ & Hw & Hh & _).
  destruct (read_frame_ok_inv _ _ _ _ Hok) as (_ & _ & _ & _ & _ & Hst & _).
  cbn [images]. unfold store. rewrite Nat.eqb_refl.
  rewrite !pushes_app, wait_pushes, read_frame_pushes.
  repeat split; try assumption.
  intros Hrange. rewrite Hp. now apply int_wrap_small.
Qed.

Lemma capture_new_frame_pushed_witness :
  exists s' later,
    capture running_display runtime0 pool 0
      ([] ++ [mk_tick 1 (Some 0%nat) io_frame true])
    = (s', ([] ++ later)%list, None)
    /\ pushes later = [(0%nat, true)].
Proof.
  destruct (capture_new_frame_pushed running_display runtime0 pool 0 []
              (mk_tick 1 (Some 0%nat) io_frame true)
              (mk_state running_display runtime0 pool 0) [] 0%nat)
    as (s' & later & Hrun & Hpushes & _).
  - reflexivity.
  - reflexivity.
  - reflexivity.
  - vm_compute; reflexivity.
  - exists s', later. split; assumption.
Defined.

(** ** The facade: [display_names] and [initialize] *)

Lemma device_paths_distinct :
  NoDup (map device_path [0; 1; 2; 3; 4; 5; 6; 7]).
Proof.
  cbn.
  repeat (constructor;
          [cbn; intros H;
           repeat (destruct H as [H|H]; [discriminate H|]); exact H|]).
  constructor.
Qed.

(** X27: a list [display_names] returns names no device twice and at most
    eight devices; every entry is an existing /dev/video0 ... /dev/video7,
    unless none of them exists and the list is the default device
    alone. *)
Theorem display_names_entries (fs : filesystem) (names : list string) :
  display_names fs = Some names ->
  NoDup names
  /\ (List.length names <= 8)%nat
  /\ ((forall path, In path names ->
       fs path = Some true
       /\ exists idx, 0 <= idx < 8 /\ path = device_path idx)
      \/ (names = [DEFAULT_DEVICE]
          /\ forall idx, 0 <= idx < 8 -> fs (device_path idx) = Some false)).
Proof.
  rewrite display_names_filter. cbv zeta.
  change ["/dev/video0"; "/dev/video1"; "/dev/video2"; "/dev/video3";
          "/dev/video4"; "/dev/video5"; "/dev/video6"; "/dev/video7"]
    with (map device_path [0; 1; 2; 3; 4; 5; 6; 7]).
  set (exists_ := fun path => match fs path with
                              | Some true => true
                              | _ => false
                              end).
  destruct (forallb _ _) eqn:Hall; [|discriminate].
  rewrite forallb_forall in Hall.
  pose proof (NoDup_filter exists_ device_paths_distinct) as Hnd.
  pose proof (filter_length_le exists_
                (map device_path [0; 1; 2; 3; 4; 5; 6; 7])) as Hlen.
  assert (Hin : forall path,
             In path (filter exists_ (map device_path [0; 1; 2; 3; 4; 5; 6; 7])) ->
             fs path = Some true
             /\ exists idx, 0 <= idx < 8 /\ path = device_path idx).
  { intros path H. apply filter_In in H. destruct H as [H He].
    split.
    - unfold exists_ in He. destruct (fs path) as [[|]|]; congruence.
    - apply in_map_iff in H. destruct H as (idx & <- & Hidx).
      exists idx. split; [cbn in Hidx; lia | reflexivity]. }
  assert (Hnone : filter exists_ (map device_path [0; 1; 2; 3; 4; 5; 6; 7]) = [] ->
                  forall idx, 0 <= idx < 8 -> fs (device_path idx) = Some false).
  { intros Hnil idx Hidx.
    assert (Hp : In (device_path idx) (map device_path [0; 1; 2; 3; 4; 5; 6; 7]))
      by (apply in_map; cbn; lia).
    specialize (Hall _ Hp).
    destruct (fs (device_path idx)) as [[|]|] eqn:E;
      [|reflexivity | discriminate Hall].
    assert (H : In (device_path idx)
                  (filter exists_ (map device_path [0; 1; 2; 3; 4; 5; 6; 7]))).
    { apply filter_In. split; [exact Hp|]. unfold exists_. now rewrite E. }
    rewrite Hnil in H. destruct H. }
  destruct (filter exists_ (map device_path [0; 1; 2; 3; 4; 5; 6; 7]))
    as [|path rest].
  - intros [= <-]. split; [repeat constructor; intros []|].
    split; [cbn; lia|]. right. split; [reflexivity | now apply Hnone].
  - intros [= <-]. split; [exact Hnd|]. split; [exact Hlen|]. left. exact Hin.
Qed.

(** X28: when [initialize] answers true the default device is the first
    entry of a list [display_names] returns; when it answers false the
    default device is listed only as the fallback, alone. *)
Theorem initialize_display_names (fs : filesystem) (names : list string) :
  display_names fs = Some names ->
  (initialize fs = Some true -> exists rest, names = DEFAULT_DEVICE :: rest)
  /\ (initialize fs = Some false ->
      In DEFAULT_DEVICE names -> names = [DEFAULT_DEVICE]).
Proof.
  unfold initialize. rewrite display_names_filter. cbv zeta.
  destruct (forallb _ _); [|discriminate].
  change ["/dev/video0"; "/dev/video1"; "/dev/video2"; "/dev/video3";
          "/dev/video4"; "/dev/video5"; "/dev/video6"; "/dev/video7"]
    with (DEFAULT_DEVICE
          :: ["/dev/video1"; "/dev/video2"; "/dev/video3";
              "/dev/video4"; "/dev/video5"; "/dev/video6"; "/dev/video7"]).
  generalize ["/dev/video1"; "/dev/video2"; "/dev/video3";
              "/dev/video4"; "/dev/video5"; "/dev/video6"; "/dev/video7"].
  intros others. cbn [filter].
  destruct (fs DEFAULT_DEVICE) as [[|]|] eqn:Hd.
  - intros [= <-]. split; [intros _; eexists; reflexivity | discriminate].
  - destruct (filter _ _) as [|path rest] eqn:E; intros [= <-];
      (split; [discriminate|]); intros _ Hin; [reflexivity|].
    rewrite <- E in Hin. apply filter_In in Hin. destruct Hin as [_ Hyes].
    cbv beta in Hyes. rewrite Hd in Hyes. discriminate Hyes.
  - intros _. split; discriminate.
Qed.

Lemma initialize_display_names_witness :
  exists rest,
    ["/dev/video0"; "/dev/video3"] = DEFAULT_DEVICE :: rest.
Proof.
  assert (Hrun : display_names
                   (fun path => Some (String.eqb path "/dev/video0"
                                      || String.eqb path "/dev/video3"))
                 = Some ["/dev/video0"; "/dev/video3"])
    by (vm_compute; reflexivity).
  apply (proj1 (initialize_display_names _ _ Hrun)).
  reflexivity.
Defined.

Lemma display_names_entries_witness :
  NoDup ["/dev/video2"].
Proof.
  assert (Hrun : display_names only_video2 = Some ["/dev/video2"])
    by (vm_compute; reflexivity).
  exact (proj1 (display_names_entries only_video2 _ Hrun)).
Defined.

Lemma open_options_hints_witness :
  In ("framerate", "30") (open_options (mk_config 1280 0 30)).
Proof.
  apply (proj2 (open_options_hints (mk_config 1280 0 30) "framerate" "30")).
  right. split; [reflexivity|]. split; [reflexivity|]. cbn. lia.
Defined.

Lemma read_frame_timeout_iff_witness :
  fill_status (read_frame io_foreign running_display runtime0 (pool 0)) = timeout.
Proof.
  apply (proj2 (proj1 (read_frame_timeout_iff io_foreign running_display
                         runtime0 (pool 0)))).
  right. left. split; vm_compute; congruence.
Defined.
